(** * MATURA UI generation engine: a shallow embedding of [UIGenerator]

    The TypeScript class [UIGenerator] turns an application idea into the file
    [<projectRoot>/app/GeneratedUI.tsx]: it builds a prompt, asks the Gemini
    API for source text (or falls back to a fixed template), extracts the
    code from the answer, writes it to disk and can validate the written file.

    Modelling choices.
    - A JavaScript string is modelled by the bytes of its UTF-8 encoding
      ([string]); this is also what [writeFileSync (..., 'utf8')] puts on disk
      and what [readFileSync (..., 'utf8')] gives back.
    - Exceptions and rejected promises are an explicit [Thrown] outcome;
      [try]/[catch] is the combinator [try_catch].
    - The process environment, the working directory, the file system and the
      network are fields of an explicit [world] that every effectful function
      threads through.
    - Console output is a diagnostic only and is not part of the model. *)

From Stdlib Require Import ZArith QArith DecimalString Ascii.
From stdpp Require Import base option list strings gmap sorting.

Close Scope Q_scope.
Set Default Proof Using "Type".
Set Warnings "-register-all".

(** ** Text *)

Module Text.

(** The line feed and the double quote, which string literals cannot hold
    conveniently. *)
Definition nl : string := String "010"%char EmptyString.
Definition dq : string := String "034"%char EmptyString.

Definition is_empty (s : string) : bool :=
  match s with EmptyString => true | String _ _ => false end.

(** [strip_prefix p s] is the rest of [s] after the prefix [p], when [s]
    starts with [p]. *)
Fixpoint strip_prefix (p s : string) : option string :=
  match p, s with
  | EmptyString, _ => Some s
  | String _ _, EmptyString => None
  | String a p', String b s' =>
      if Ascii.eqb a b then strip_prefix p' s' else None
  end.

Definition starts_with (p s : string) : bool :=
  match strip_prefix p s with Some _ => true | None => false end.

(** [String.prototype.includes]: [needle] occurs somewhere in [s]. *)
Fixpoint includes (s needle : string) : bool :=
  if starts_with needle s then true
  else match s with
       | EmptyString => false
       | String _ s' => includes s' needle
       end.

(** *** [String.prototype.trim]

    [trim] removes the WhiteSpace and LineTerminator code points of
    ECMAScript from both ends: U+0009..U+000D, U+0020, U+00A0, U+1680,
    U+2000..U+200A, U+2028, U+2029, U+202F, U+205F, U+3000 and U+FEFF.
    On UTF-8 bytes these take one, two or three bytes. *)

Definition ws1 (a : ascii) : bool :=
  let n := nat_of_ascii a in
  ((9 <=? n) && (n <=? 13)) || (n =? 32).

Definition ws2 (a b : ascii) : bool :=
  (nat_of_ascii a =? 194) && (nat_of_ascii b =? 160).

Definition ws3 (a b c : ascii) : bool :=
  let x := nat_of_ascii a in
  let y := nat_of_ascii b in
  let z := nat_of_ascii c in
  ((x =? 225) && (y =? 154) && (z =? 128))
  || ((x =? 226) && (y =? 128)
      && (((128 <=? z) && (z <=? 138)) || (z =? 168) || (z =? 169) || (z =? 175)))
  || ((x =? 226) && (y =? 129) && (z =? 159))
  || ((x =? 227) && (y =? 128) && (z =? 128))
  || ((x =? 239) && (y =? 187) && (z =? 191)).

(** The number of bytes of the white-space character at the start of [s];
    [0] when [s] does not start with one. *)
Definition ws_width (s : string) : nat :=
  match s with
  | EmptyString => 0
  | String a r =>
      if ws1 a then 1
      else match r with
           | EmptyString => 0
           | String b r' =>
               if ws2 a b then 2
               else match r' with
                    | EmptyString => 0
                    | String c _ => if ws3 a b c then 3 else 0
                    end
           end
  end.

(** [trimStart_from k s] drops [k] more bytes of an already recognised
    white-space character, then all further leading white space. *)
Fixpoint trimStart_from (k : nat) (s : string) : string :=
  match s with
  | EmptyString => EmptyString
  | String _ r =>
      match k with
      | S k' => trimStart_from k' r
      | O => match ws_width s with
             | O => s
             | S w => trimStart_from w r
             end
      end
  end.

Definition trimStart (s : string) : string := trimStart_from 0 s.

(** [s] consists of white space only. *)
Definition blank (s : string) : bool := is_empty (trimStart s).

(** [trimEnd] cuts [s] where only white space follows. *)
Fixpoint trimEnd (s : string) : string :=
  match s with
  | EmptyString => EmptyString
  | String a r => if blank s then EmptyString else String a (trimEnd r)
  end.

Definition trim (s : string) : string := trimStart (trimEnd s).

(** Decimal text of an integer, as template literals print numbers. *)
Definition of_Z (z : Z) : string := NilZero.string_of_int (Z.to_int z).

(** [lines.join("\n")]. *)
Definition unlines (ls : list string) : string := String.concat nl ls.

End Text.

Export Text.

(** ** The two regular expressions of [extractCodeFromResponse]

    Both expressions are anchored on the fence of three backquotes and use
    the same optional group [(?:typescript|tsx|ts)?].  They are embedded as
    the matchers a backtracking engine runs for them: alternatives are tried
    in the order written, the optional group is tried before its omission,
    and the lazy star takes the shortest body that lets the rest match. *)

Module Regex.

Definition fence : string := "```".

(** The closing [\n```]. *)
Definition closing : string := nl +:+ fence.

(** The alternatives of [(?:typescript|tsx|ts)?] in the order the engine
    tries them; the empty text is the omitted group. *)
Definition tag_alternatives : list string :=
  ["typescript"; "tsx"; "ts"; EmptyString].

(** [([\s\S]*?)\n```] at the start of [s]: the shortest body followed by the
    closing fence. *)
Fixpoint lazy_body (s : string) : option string :=
  if starts_with closing s then Some EmptyString
  else match s with
       | EmptyString => None
       | String a s' => String a <$> lazy_body s'
       end.

(** The first alternative in [alts] for which [k] succeeds. *)
Fixpoint first_alternative {A} (k : string → option A) (alts : list string)
  : option A :=
  match alts with
  | [] => None
  | t :: alts' =>
      match k t with
      | Some r => Some r
      | None => first_alternative k alts'
      end
  end.

(** [/```(?:typescript|tsx|ts)?\n([\s\S]*?)\n```/] anchored at the start of
    [s]; the result is the matched text. *)
Definition codeBlockRegex_at (s : string) : option string :=
  r ← strip_prefix fence s;
  first_alternative
    (λ t, r' ← strip_prefix (t +:+ nl) r;
          body ← lazy_body r';
          Some (fence +:+ t +:+ nl +:+ body +:+ closing))
    tag_alternatives.

(** [/```(?:typescript|tsx|ts)?\n?/] anchored at the start of [s]; the result
    is the length of the matched text.  Nothing follows the two optional
    parts, so each takes the first thing that fits. *)
Definition fenceRegex_at (s : string) : option nat :=
  r ← strip_prefix fence s;
  first_alternative
    (λ t, r' ← strip_prefix t r;
          Some (3 + String.length t + (if starts_with nl r' then 1 else 0)))
    tag_alternatives.

(** [s.match(/.../g)] for [codeBlockRegex]: all matches from left to right,
    each search resuming after the previous match.  [skip] counts the bytes
    of the previous match still to pass. *)
Fixpoint codeBlock_matches_from (skip : nat) (s : string) : list string :=
  match s with
  | EmptyString => []
  | String _ s' =>
      match skip with
      | S k => codeBlock_matches_from k s'
      | O => match codeBlockRegex_at s with
             | Some m => m :: codeBlock_matches_from (String.length m - 1) s'
             | None => codeBlock_matches_from 0 s'
             end
      end
  end.

(** [String.prototype.match] with a global expression: [None] is [null]. *)
Definition match_codeBlocks (s : string) : option (list string) :=
  match codeBlock_matches_from 0 s with
  | [] => None
  | ms => Some ms
  end.

(** [s.replace(/```(?:typescript|tsx|ts)?\n?/g, '')]. *)
Fixpoint remove_fences_from (skip : nat) (s : string) : string :=
  match s with
  | EmptyString => EmptyString
  | String a s' =>
      match skip with
      | S k => remove_fences_from k s'
      | O => match fenceRegex_at s with
             | Some n => remove_fences_from (n - 1) s'
             | None => String a (remove_fences_from 0 s')
             end
      end
  end.

Definition remove_fences (s : string) : string := remove_fences_from 0 s.

(** [s.replace(/\n```$/g, '')]: without the [m] flag [$] is the end of the
    text, so the only possible match is a closing fence ending the text. *)
Fixpoint remove_final_closing (s : string) : string :=
  if String.eqb s closing then EmptyString
  else match s with
       | EmptyString => EmptyString
       | String a s' => String a (remove_final_closing s')
       end.

End Regex.

(** ** ResponseExtractor *)

(** [UIGenerator.extractCodeFromResponse]. *)
Definition extractCodeFromResponse (response : string) : string :=
  match Regex.match_codeBlocks response with
  | Some (m0 :: _) =>
      let code := Regex.remove_final_closing (Regex.remove_fences m0) in
      trim code
  | _ => trim response
  end.

(** ** Values, errors and outcomes *)

(** What [response.json()] can produce, plus [undefined], which property
    access produces.  Numbers are the rationals a parsed JSON number
    denotes; the code only tests them for zero. *)
Inductive value :=
  | VUndefined
  | VNull
  | VBool (b : bool)
  | VNum (q : Q)
  | VStr (s : string)
  | VArr (items : list value)
  | VObj (props : list (string * value)).

(** What can be thrown: the [Error] objects the code creates, the
    [TypeError] of the language, a system error of [fs] with its code and
    path, and whatever the network layer rejects with. *)
Inductive error :=
  | Error (message : string)
  | TypeError (message : string)
  | SystemError (code : string) (at_path : list string)
  | Rejection (reason : value).

Inductive outcome (A : Type) :=
  | Returned (a : A)
  | Thrown (e : error).
Arguments Returned {A} a.
Arguments Thrown {A} e.

Module Js.

(** ToBoolean. *)
Definition truthy (v : value) : bool :=
  match v with
  | VUndefined | VNull => false
  | VBool b => b
  | VNum q => negb (Qeq_bool q 0)
  | VStr s => negb (is_empty s)
  | VArr _ | VObj _ => true
  end.

(** The own property [k] of a parsed object: the last binding wins, as in
    [JSON.parse]. *)
Fixpoint own_property (k : string) (props : list (string * value))
  : option value :=
  match props with
  | [] => None
  | (k', v) :: rest =>
      match own_property k rest with
      | Some v' => Some v'
      | None => if String.eqb k k' then Some v else None
      end
  end.

(** [v.name] for the names [candidates], [content], [parts] and [text],
    which no built-in prototype defines: only an object can hold them, and
    [null] and [undefined] have no properties at all. *)
Definition member (v : value) (name : string) : outcome value :=
  match v with
  | VUndefined | VNull =>
      Thrown (TypeError ("Cannot read properties of null or undefined (reading '"
                         +:+ name +:+ "')"))
  | VObj props => Returned (default VUndefined (own_property name props))
  | _ => Returned VUndefined
  end.

(** [v[0]]: the first element of an array, the first character of a text,
    the property ["0"] of an object. *)
Definition index0 (v : value) : outcome value :=
  match v with
  | VUndefined | VNull =>
      Thrown (TypeError "Cannot read properties of null or undefined (reading '0')")
  | VArr items => Returned (default VUndefined (head items))
  | VStr s => Returned (match s with
                        | EmptyString => VUndefined
                        | String a _ => VStr (String a EmptyString)
                        end)
  | VObj props => Returned (default VUndefined (own_property "0" props))
  | _ => Returned VUndefined
  end.

(** Optional chaining [v?.name] and [v?.[0]]: [undefined] when [v] is
    [null] or [undefined]. *)
Definition opt_member (v : value) (name : string) : value :=
  match member v name with Returned r => r | Thrown _ => VUndefined end.

Definition opt_index0 (v : value) : value :=
  match index0 v with Returned r => r | Thrown _ => VUndefined end.

(** [a || b]. *)
Definition or_else (a b : value) : value := if truthy a then a else b.

End Js.

(** ** The world: environment, file system and network *)

(** A resolved path is the list of its components below the root of the file
    system; [path.join] of a resolved path and a plain name adds the name. *)
Abbreviation path := (list string).

Definition join (dir : path) (name : string) : path := dir ++ [name].

Inductive node :=
  | File (content : string)
  | Dir.

(** The body of the request is kept as the object handed to
    [JSON.stringify]. *)
Record request := Request {
  url : string;
  method : string;
  headers : list (string * string);
  body : value
}.

Record response := Response {
  status : Z;
  json : outcome value          (* what [response.json()] settles to *)
}.

(** [response.ok]: the status is in the range 200..299. *)
Definition ok (r : response) : bool :=
  ((200 <=? status r) && (status r <=? 299))%Z.

Record world := World {
  env : gmap string string;               (* [process.env] *)
  cwd : path;                             (* [process.cwd()] *)
  files : gmap path node;                 (* the file system *)
  server : request → outcome response;    (* how the network answers *)
  requests : list request                 (* the requests sent so far *)
}.

(** ** Effectful computations *)

Definition IO (A : Type) : Type := world → outcome A * world.

Definition ret {A} (a : A) : IO A := λ w, (Returned a, w).

Definition throw {A} (e : error) : IO A := λ w, (Thrown e, w).

Definition bind {A B} (m : IO A) (k : A → IO B) : IO B :=
  λ w, match m w with
       | (Returned a, w') => k a w'
       | (Thrown e, w') => (Thrown e, w')
       end.

(** [try { m } catch (error) { handler error }]. *)
Definition try_catch {A} (m : IO A) (handler : error → IO A) : IO A :=
  λ w, match m w with
       | (Returned a, w') => (Returned a, w')
       | (Thrown e, w') => handler e w'
       end.

(** A pure step that may throw. *)
Definition lift {A} (o : outcome A) : IO A := λ w, (o, w).

Notation "'let*' x := m 'in' k" := (bind m (λ x, k))
  (at level 10, x name, m at level 100, k at level 200,
   format "'[v' 'let*'  x  :=  m  'in' '/' k ']'").

Definition read_world : IO world := λ w, (Returned w, w).

(** *** [fs]

    The file system is a finite map from resolved paths to nodes.
    Permissions, quotas and device errors are not modelled: an operation
    fails only for the shape of the tree (a file where a directory is
    needed, a directory where a file is needed, a missing parent). *)

Module Fs.

(** The root of the file system is a directory that always exists. *)
Definition node_at (fs : gmap path node) (p : path) : option node :=
  match p with
  | [] => Some Dir
  | _ => fs !! p
  end.

Definition parent (p : path) : path := removelast p.

(** [mkdir -p] below [base] for the remaining [names]: existing directories
    are passed, missing ones are made, a file in the way is an error, which
    names the directory asked for ([base ++ names] is that directory at
    every step). *)
Fixpoint make_dirs (base : path) (names : list string) (fs : gmap path node)
  : outcome (gmap path node) :=
  match names with
  | [] => Returned fs
  | n :: rest =>
      let d := join base n in
      match fs !! d with
      | Some Dir => make_dirs d rest fs
      | Some (File _) =>
          Thrown (SystemError (match rest with [] => "EEXIST" | _ => "ENOTDIR" end)
                    (base ++ names))
      | None => make_dirs d rest (<[d := Dir]> fs)
      end
  end.

Definition with_files (w : world) (fs : gmap path node) : world :=
  World (env w) (cwd w) fs (server w) (requests w).

(** [existsSync(p)]. *)
Definition existsSync (p : path) : IO bool :=
  λ w, (Returned (bool_decide (is_Some (node_at (files w) p))), w).

(** [mkdirSync(p, { recursive: true })]. *)
Definition mkdirSync_recursive (p : path) : IO unit :=
  λ w, match make_dirs [] p (files w) with
       | Returned fs => (Returned tt, with_files w fs)
       | Thrown e => (Thrown e, w)
       end.

(** [writeFileSync(p, data, 'utf8')]: the file is created or replaced; the
    parent must be a directory and [p] itself must not be one. *)
Definition writeFileSync (p : path) (data : string) : IO unit :=
  λ w, match node_at (files w) p with
       | Some Dir => (Thrown (SystemError "EISDIR" p), w)
       | _ =>
           match node_at (files w) (parent p) with
           | Some Dir => (Returned tt, with_files w (<[p := File data]> (files w)))
           | Some (File _) => (Thrown (SystemError "ENOTDIR" p), w)
           | None => (Thrown (SystemError "ENOENT" p), w)
           end
       end.

(** [readFileSync(p, 'utf8')]. *)
Definition readFileSync (p : path) : IO string :=
  λ w, match node_at (files w) p with
       | Some (File content) => (Returned content, w)
       | Some Dir => (Thrown (SystemError "EISDIR" p), w)
       | None => (Thrown (SystemError "ENOENT" p), w)
       end.

End Fs.

(** *** [fetch] *)

(** The world after [req] has been sent. *)
Definition sent (w : world) (req : request) : world :=
  World (env w) (cwd w) (files w) (server w) (requests w ++ [req]).

(** [await fetch(url, init)]: the request is sent (and recorded); the
    promise is fulfilled with a response or rejected. *)
Definition fetch (req : request) : IO response :=
  λ w, (server w req, sent w req).

(** [await response.json()]. *)
Definition response_json (r : response) : IO value := lift (json r).

(** ** The class [UIGenerator] *)

Inductive theme := modern | minimal | professional.

Definition theme_text (t : theme) : string :=
  match t with
  | modern => "modern"
  | minimal => "minimal"
  | professional => "professional"
  end.

(** [interface UIGenerationOptions]; [None] is an absent optional field. *)
Record UIGenerationOptions := Options {
  appIdea : string;
  opt_theme : option theme;
  features : option (list string);
  opt_apiKey : option string
}.

(** The lines of the template literal returned by [generateEnhancedFallbackUI], with its escapes resolved. *)
Definition fallback_lines : list string :=
  [ "'use client'"
  ; EmptyString
  ; "import React from 'react'"
  ; "import { Button } from '@/components/ui/button'"
  ; "import { Card, CardContent, CardDescription, CardHeader, CardTitle } from '@/components/ui/card'"
  ; "import { Badge } from '@/components/ui/badge'"
  ; "import { ArrowRight, Calculator, TrendingUp, Shield, Users } from 'lucide-react'"
  ; "import { useFuyouStore } from '@/store/fuyouStore'"
  ; EmptyString
  ; "/**"
  ; " * MATURA Generated UI - 扶養控除計算アプリ"
  ; " * 自動生成されたUI雛形"
  ; " */"
  ; "export default function GeneratedUI() {"
  ; "  // ===== Zustand Store 連携 ====="
  ; "  const { "
  ; "    income, "
  ; "    remainingLimit, "
  ; "    dependentCount,"
  ; "    updateIncome, "
  ; "    addDependent, "
  ; "    removeDependent,"
  ; "    calculateRemaining "
  ; "  } = useFuyouStore()"
  ; EmptyString
  ; "  // ===== Event Handlers ====="
  ; "  const handleIncomeUpdate = () => {"
  ; "    console.log('🔄 [Generated UI] Income update triggered')"
  ; "    updateIncome(income + 100000) // 10万円追加例"
  ; "    calculateRemaining()"
  ; "    console.log(`💰 Updated income: ¥${income.toLocaleString()}`)"
  ; "    console.log(`📊 Remaining limit: ¥${remainingLimit.toLocaleString()}`)"
  ; "  }"
  ; EmptyString
  ; "  const handleDependentAdd = () => {"
  ; "    console.log('👥 [Generated UI] Adding dependent')"
  ; "    addDependent()"
  ; "    calculateRemaining()"
  ; "    console.log(`👨‍👩‍👧‍👦 Dependents: ${dependentCount}`)"
  ; "  }"
  ; EmptyString
  ; "  const handleCalculate = async () => {"
  ; "    console.log('🧮 [Generated UI] Starting calculation...')"
  ; "    "
  ; "    // API呼び出しシミュレーション"
  ; "    try {"
  ; "      const response = await fetch('/api/fuyouCheck', {"
  ; "        method: 'POST',"
  ; "        headers: { 'Content-Type': 'application/json' },"
  ; "        body: JSON.stringify({ income, dependentCount })"
  ; "      })"
  ; "      "
  ; "      if (response.ok) {"
  ; "        const result = await response.json()"
  ; "        console.log('✅ [Generated UI] API call successful:', result)"
  ; "        updateIncome(result.adjustedIncome || income)"
  ; "      }"
  ; "    } catch (error) {"
  ; "      console.warn('⚠️ [Generated UI] API call failed:', error)"
  ; "    }"
  ; "  }"
  ; EmptyString
  ; "  return ("
  ; "    <div className=" +:+ dq +:+ "min-h-screen bg-gradient-to-br from-blue-50 to-indigo-100" +:+ dq +:+ ">"
  ; "      {/* Hero Section */}"
  ; "      <section className=" +:+ dq +:+ "relative overflow-hidden bg-white" +:+ dq +:+ ">"
  ; "        <div className=" +:+ dq +:+ "container mx-auto px-6 py-20" +:+ dq +:+ ">"
  ; "          <div className=" +:+ dq +:+ "text-center space-y-8" +:+ dq +:+ ">"
  ; "            {/* Badge */}"
  ; "            <Badge className=" +:+ dq +:+ "bg-blue-100 text-blue-800 border-blue-200 px-4 py-2" +:+ dq +:+ ">"
  ; "              <Calculator className=" +:+ dq +:+ "w-4 h-4 mr-2" +:+ dq +:+ " />"
  ; "              自動生成AI powered"
  ; "            </Badge>"
  ; EmptyString
  ; "            {/* Main Heading */}"
  ; "            <h1 className=" +:+ dq +:+ "text-5xl md:text-6xl font-bold text-gray-900 leading-tight" +:+ dq +:+ ">"
  ; "              <span className=" +:+ dq +:+ "text-blue-600" +:+ dq +:+ ">扶養控除</span>"
  ; "              <br />"
  ; "              <span className=" +:+ dq +:+ "text-gray-800" +:+ dq +:+ ">自動計算システム</span>"
  ; "            </h1>"
  ; EmptyString
  ; "            {/* Subtitle */}"
  ; "            <p className=" +:+ dq +:+ "text-xl md:text-2xl text-gray-600 max-w-3xl mx-auto leading-relaxed" +:+ dq +:+ ">"
  ; "              収入と扶養家族数を入力するだけで、"
  ; "              <span className=" +:+ dq +:+ "text-blue-600 font-semibold" +:+ dq +:+ ">最適な控除額</span>"
  ; "              を自動計算します"
  ; "            </p>"
  ; EmptyString
  ; "            {/* 現在の状態表示 */}"
  ; "            <div className=" +:+ dq +:+ "bg-blue-50 rounded-lg p-6 max-w-md mx-auto" +:+ dq +:+ ">"
  ; "              <div className=" +:+ dq +:+ "space-y-3" +:+ dq +:+ ">"
  ; "                <div className=" +:+ dq +:+ "flex justify-between items-center" +:+ dq +:+ ">"
  ; "                  <span className=" +:+ dq +:+ "font-medium text-gray-700" +:+ dq +:+ ">現在の収入:</span>"
  ; "                  <span className=" +:+ dq +:+ "text-2xl font-bold text-blue-600" +:+ dq +:+ ">"
  ; "                    ¥{income.toLocaleString()}"
  ; "                  </span>"
  ; "                </div>"
  ; "                <div className=" +:+ dq +:+ "flex justify-between items-center" +:+ dq +:+ ">"
  ; "                  <span className=" +:+ dq +:+ "font-medium text-gray-700" +:+ dq +:+ ">扶養家族数:</span>"
  ; "                  <span className=" +:+ dq +:+ "text-xl font-semibold text-green-600" +:+ dq +:+ ">"
  ; "                    {dependentCount}人"
  ; "                  </span>"
  ; "                </div>"
  ; "                <div className=" +:+ dq +:+ "flex justify-between items-center" +:+ dq +:+ ">"
  ; "                  <span className=" +:+ dq +:+ "font-medium text-gray-700" +:+ dq +:+ ">控除可能額:</span>"
  ; "                  <span className=" +:+ dq +:+ "text-2xl font-bold text-orange-600" +:+ dq +:+ ">"
  ; "                    ¥{remainingLimit.toLocaleString()}"
  ; "                  </span>"
  ; "                </div>"
  ; "              </div>"
  ; "            </div>"
  ; EmptyString
  ; "            {/* CTA Buttons */}"
  ; "            <div className=" +:+ dq +:+ "flex flex-col sm:flex-row gap-4 justify-center items-center pt-8" +:+ dq +:+ ">"
  ; "              <Button "
  ; "                size=" +:+ dq +:+ "lg" +:+ dq +:+ " "
  ; "                onClick={handleIncomeUpdate}"
  ; "                className=" +:+ dq +:+ "bg-blue-600 hover:bg-blue-700 text-white px-8 py-6 text-lg font-semibold shadow-lg hover:shadow-xl transition-all duration-200" +:+ dq
  ; "              >"
  ; "                <TrendingUp className=" +:+ dq +:+ "w-5 h-5 mr-2" +:+ dq +:+ " />"
  ; "                収入を更新"
  ; "                <ArrowRight className=" +:+ dq +:+ "w-5 h-5 ml-2" +:+ dq +:+ " />"
  ; "              </Button>"
  ; "              "
  ; "              <Button "
  ; "                variant=" +:+ dq +:+ "outline" +:+ dq +:+ " "
  ; "                size=" +:+ dq +:+ "lg" +:+ dq
  ; "                onClick={handleDependentAdd}"
  ; "                className=" +:+ dq +:+ "border-blue-300 text-blue-700 hover:bg-blue-50 px-8 py-6 text-lg font-semibold transition-all duration-200" +:+ dq
  ; "              >"
  ; "                <Users className=" +:+ dq +:+ "w-5 h-5 mr-2" +:+ dq +:+ " />"
  ; "                扶養者を追加"
  ; "              </Button>"
  ; EmptyString
  ; "              <Button "
  ; "                size=" +:+ dq +:+ "lg" +:+ dq
  ; "                onClick={handleCalculate}"
  ; "                className=" +:+ dq +:+ "bg-green-600 hover:bg-green-700 text-white px-8 py-6 text-lg font-semibold shadow-lg hover:shadow-xl transition-all duration-200" +:+ dq
  ; "              >"
  ; "                <Calculator className=" +:+ dq +:+ "w-5 h-5 mr-2" +:+ dq +:+ " />"
  ; "                再計算実行"
  ; "              </Button>"
  ; "            </div>"
  ; "          </div>"
  ; "        </div>"
  ; "      </section>"
  ; EmptyString
  ; "      {/* Features Cards Section */}"
  ; "      <section className=" +:+ dq +:+ "py-20 px-6" +:+ dq +:+ ">"
  ; "        <div className=" +:+ dq +:+ "container mx-auto" +:+ dq +:+ ">"
  ; "          <div className=" +:+ dq +:+ "text-center mb-16" +:+ dq +:+ ">"
  ; "            <h2 className=" +:+ dq +:+ "text-3xl md:text-4xl font-bold text-gray-900 mb-4" +:+ dq +:+ ">"
  ; "              なぜ<span className=" +:+ dq +:+ "text-blue-600" +:+ dq +:+ ">自動計算</span>なのか？"
  ; "            </h2>"
  ; "            <p className=" +:+ dq +:+ "text-lg text-gray-600 max-w-2xl mx-auto" +:+ dq +:+ ">"
  ; "              複雑な扶養控除計算を自動化し、最適な節税効果を実現"
  ; "            </p>"
  ; "          </div>"
  ; EmptyString
  ; "          <div className=" +:+ dq +:+ "grid md:grid-cols-2 lg:grid-cols-3 gap-8" +:+ dq +:+ ">"
  ; "            {/* Feature Card 1 */}"
  ; "            <Card className=" +:+ dq +:+ "bg-white border border-gray-200 shadow-md hover:shadow-lg transition-shadow duration-200" +:+ dq +:+ ">"
  ; "              <CardHeader className=" +:+ dq +:+ "text-center pb-4" +:+ dq +:+ ">"
  ; "                <div className=" +:+ dq +:+ "mx-auto w-12 h-12 bg-blue-100 rounded-lg flex items-center justify-center mb-4" +:+ dq +:+ ">"
  ; "                  <Calculator className=" +:+ dq +:+ "w-6 h-6 text-blue-600" +:+ dq +:+ " />"
  ; "                </div>"
  ; "                <CardTitle className=" +:+ dq +:+ "text-xl font-semibold text-gray-900" +:+ dq +:+ ">"
  ; "                  自動計算"
  ; "                </CardTitle>"
  ; "                <CardDescription className=" +:+ dq +:+ "text-gray-600" +:+ dq +:+ ">"
  ; "                  収入と扶養者数から最適な控除額を自動算出"
  ; "                </CardDescription>"
  ; "              </CardHeader>"
  ; "              <CardContent>"
  ; "                <ul className=" +:+ dq +:+ "space-y-2 text-sm text-gray-600" +:+ dq +:+ ">"
  ; "                  <li className=" +:+ dq +:+ "flex items-center" +:+ dq +:+ ">"
  ; "                    <div className=" +:+ dq +:+ "w-2 h-2 bg-blue-500 rounded-full mr-3" +:+ dq +:+ "></div>"
  ; "                    リアルタイム計算"
  ; "                  </li>"
  ; "                  <li className=" +:+ dq +:+ "flex items-center" +:+ dq +:+ ">"
  ; "                    <div className=" +:+ dq +:+ "w-2 h-2 bg-blue-500 rounded-full mr-3" +:+ dq +:+ "></div>"
  ; "                    税制対応"
  ; "                  </li>"
  ; "                  <li className=" +:+ dq +:+ "flex items-center" +:+ dq +:+ ">"
  ; "                    <div className=" +:+ dq +:+ "w-2 h-2 bg-blue-500 rounded-full mr-3" +:+ dq +:+ "></div>"
  ; "                    履歴管理"
  ; "                  </li>"
  ; "                </ul>"
  ; "              </CardContent>"
  ; "            </Card>"
  ; EmptyString
  ; "            {/* Feature Card 2 */}"
  ; "            <Card className=" +:+ dq +:+ "bg-white border border-gray-200 shadow-md hover:shadow-lg transition-shadow duration-200" +:+ dq +:+ ">"
  ; "              <CardHeader className=" +:+ dq +:+ "text-center pb-4" +:+ dq +:+ ">"
  ; "                <div className=" +:+ dq +:+ "mx-auto w-12 h-12 bg-green-100 rounded-lg flex items-center justify-center mb-4" +:+ dq +:+ ">"
  ; "                  <Shield className=" +:+ dq +:+ "w-6 h-6 text-green-600" +:+ dq +:+ " />"
  ; "                </div>"
  ; "                <CardTitle className=" +:+ dq +:+ "text-xl font-semibold text-gray-900" +:+ dq +:+ ">"
  ; "                  データ保護"
  ; "                </CardTitle>"
  ; "                <CardDescription className=" +:+ dq +:+ "text-gray-600" +:+ dq +:+ ">"
  ; "                  個人情報の安全な管理と暗号化処理"
  ; "                </CardDescription>"
  ; "              </CardHeader>"
  ; "              <CardContent>"
  ; "                <ul className=" +:+ dq +:+ "space-y-2 text-sm text-gray-600" +:+ dq +:+ ">"
  ; "                  <li className=" +:+ dq +:+ "flex items-center" +:+ dq +:+ ">"
  ; "                    <div className=" +:+ dq +:+ "w-2 h-2 bg-green-500 rounded-full mr-3" +:+ dq +:+ "></div>"
  ; "                    暗号化保存"
  ; "                  </li>"
  ; "                  <li className=" +:+ dq +:+ "flex items-center" +:+ dq +:+ ">"
  ; "                    <div className=" +:+ dq +:+ "w-2 h-2 bg-green-500 rounded-full mr-3" +:+ dq +:+ "></div>"
  ; "                    GDPR準拠"
  ; "                  </li>"
  ; "                  <li className=" +:+ dq +:+ "flex items-center" +:+ dq +:+ ">"
  ; "                    <div className=" +:+ dq +:+ "w-2 h-2 bg-green-500 rounded-full mr-3" +:+ dq +:+ "></div>"
  ; "                    監査ログ"
  ; "                  </li>"
  ; "                </ul>"
  ; "              </CardContent>"
  ; "            </Card>"
  ; EmptyString
  ; "            {/* Feature Card 3 */}"
  ; "            <Card className=" +:+ dq +:+ "bg-white border border-gray-200 shadow-md hover:shadow-lg transition-shadow duration-200" +:+ dq +:+ ">"
  ; "              <CardHeader className=" +:+ dq +:+ "text-center pb-4" +:+ dq +:+ ">"
  ; "                <div className=" +:+ dq +:+ "mx-auto w-12 h-12 bg-purple-100 rounded-lg flex items-center justify-center mb-4" +:+ dq +:+ ">"
  ; "                  <TrendingUp className=" +:+ dq +:+ "w-6 h-6 text-purple-600" +:+ dq +:+ " />"
  ; "                </div>"
  ; "                <CardTitle className=" +:+ dq +:+ "text-xl font-semibold text-gray-900" +:+ dq +:+ ">"
  ; "                  最適化提案"
  ; "                </CardTitle>"
  ; "                <CardDescription className=" +:+ dq +:+ "text-gray-600" +:+ dq +:+ ">"
  ; "                  AI分析による節税効果の最大化提案"
  ; "                </CardDescription>"
  ; "              </CardHeader>"
  ; "              <CardContent>"
  ; "                <ul className=" +:+ dq +:+ "space-y-2 text-sm text-gray-600" +:+ dq +:+ ">"
  ; "                  <li className=" +:+ dq +:+ "flex items-center" +:+ dq +:+ ">"
  ; "                    <div className=" +:+ dq +:+ "w-2 h-2 bg-purple-500 rounded-full mr-3" +:+ dq +:+ "></div>"
  ; "                    AI分析"
  ; "                  </li>"
  ; "                  <li className=" +:+ dq +:+ "flex items-center" +:+ dq +:+ ">"
  ; "                    <div className=" +:+ dq +:+ "w-2 h-2 bg-purple-500 rounded-full mr-3" +:+ dq +:+ "></div>"
  ; "                    最適化案"
  ; "                  </li>"
  ; "                  <li className=" +:+ dq +:+ "flex items-center" +:+ dq +:+ ">"
  ; "                    <div className=" +:+ dq +:+ "w-2 h-2 bg-purple-500 rounded-full mr-3" +:+ dq +:+ "></div>"
  ; "                    シミュレーション"
  ; "                  </li>"
  ; "                </ul>"
  ; "              </CardContent>"
  ; "            </Card>"
  ; "          </div>"
  ; "        </div>"
  ; "      </section>"
  ; EmptyString
  ; "      {/* Final CTA Section */}"
  ; "      <section className=" +:+ dq +:+ "py-20 px-6 bg-white" +:+ dq +:+ ">"
  ; "        <div className=" +:+ dq +:+ "container mx-auto" +:+ dq +:+ ">"
  ; "          <Card className=" +:+ dq +:+ "bg-gradient-to-r from-blue-500/10 via-purple-500/10 to-pink-500/10 border-blue-200" +:+ dq +:+ ">"
  ; "            <CardContent className=" +:+ dq +:+ "p-16 text-center" +:+ dq +:+ ">"
  ; "              <h3 className=" +:+ dq +:+ "text-3xl md:text-4xl font-bold text-gray-900 mb-4" +:+ dq +:+ ">"
  ; "                今すぐ<span className=" +:+ dq +:+ "text-blue-600" +:+ dq +:+ ">最適化</span>を始めませんか？"
  ; "              </h3>"
  ; "              <p className=" +:+ dq +:+ "text-lg text-gray-600 mb-8 max-w-2xl mx-auto" +:+ dq +:+ ">"
  ; "                数分で扶養控除の最適化が完了し、年間数万円の節税効果を実現できます"
  ; "              </p>"
  ; "              <div className=" +:+ dq +:+ "flex flex-col sm:flex-row gap-4 justify-center" +:+ dq +:+ ">"
  ; "                <Button "
  ; "                  size=" +:+ dq +:+ "lg" +:+ dq
  ; "                  onClick={handleCalculate}"
  ; "                  className=" +:+ dq +:+ "bg-blue-600 hover:bg-blue-700 text-white px-12 py-6 text-xl font-semibold shadow-lg hover:shadow-xl transition-all duration-200" +:+ dq
  ; "                >"
  ; "                  <Calculator className=" +:+ dq +:+ "w-6 h-6 mr-2" +:+ dq +:+ " />"
  ; "                  無料で計算開始"
  ; "                  <ArrowRight className=" +:+ dq +:+ "w-6 h-6 ml-2" +:+ dq +:+ " />"
  ; "                </Button>"
  ; "                <Button "
  ; "                  variant=" +:+ dq +:+ "outline" +:+ dq
  ; "                  size=" +:+ dq +:+ "lg" +:+ dq
  ; "                  onClick={() => console.log('📊 詳細ガイド表示')}"
  ; "                  className=" +:+ dq +:+ "border-blue-300 text-blue-700 hover:bg-blue-50 px-12 py-6 text-xl transition-all duration-200" +:+ dq
  ; "                >"
  ; "                  詳細ガイドを見る"
  ; "                </Button>"
  ; "              </div>"
  ; "              "
  ; "              <div className=" +:+ dq +:+ "mt-8 text-sm text-gray-500" +:+ dq +:+ ">"
  ; "                🤖 このUIは MATURA AI によって自動生成されました"
  ; "              </div>"
  ; "            </CardContent>"
  ; "          </Card>"
  ; "        </div>"
  ; "      </section>"
  ; "    </div>"
  ; "  )"
  ; "}"
  ].

(** The lines of the template literal of [buildUIPrompt]; it starts and
    ends with a line feed. *)
Definition prompt_lines (appIdea theme : string) : list string :=
  [ EmptyString
  ; "Generate a complete Next.js 14 App Router React component for the following application idea:"
  ; EmptyString
  ; "APPLICATION IDEA: " +:+ appIdea
  ; EmptyString
  ; "REQUIREMENTS:"
  ; "1. Use 'use client' directive"
  ; "2. Import and use shadcn/ui components: Button, Card, CardContent, CardDescription, CardHeader, CardTitle, Badge"
  ; "3. Import appropriate Lucide React icons based on the app idea"
  ; "4. Use Tailwind CSS for styling with " +:+ theme +:+ " theme"
  ; "5. Import useStore from the appropriate store file"
  ; EmptyString
  ; "DYNAMIC UI STRUCTURE:"
  ; "- Analyze the application idea and create appropriate UI sections"
  ; "- Hero section with compelling headline based on the app"
  ; "- Display key data/metrics from the store"
  ; "- Action buttons that match the app's primary functions"
  ; "- Feature cards showcasing the app's value propositions"
  ; "- Final CTA section encouraging user engagement"
  ; EmptyString
  ; "FUNCTIONALITY:"
  ; "- Create onClick handlers appropriate to the application"
  ; "- Integrate with the generated store actions"
  ; "- Include console.log statements for debugging"
  ; "- Make API calls to appropriate endpoints"
  ; "- Display real data from the store"
  ; "- Include loading states and error handling"
  ; EmptyString
  ; "STYLING:"
  ; "- Use gradient backgrounds and modern CSS"
  ; "- Responsive design (mobile-first)"
  ; "- Professional color scheme appropriate to the app"
  ; "- Hover effects and transitions"
  ; "- Clean typography"
  ; EmptyString
  ; "OUTPUT REQUIREMENTS:"
  ; "- Return ONLY the complete TypeScript React component code"
  ; "- Include all imports at the top"
  ; "- Add JSDoc comments"
  ; "- Use proper TypeScript types"
  ; "- Include console.log statements for debugging"
  ; "- Make it production-ready"
  ; "- Code should work immediately without modifications"
  ; EmptyString
  ; "Generate the complete component now:"
  ; EmptyString
  ].

(** [process.env.GEMINI_API_KEY || null]: an empty variable is falsy and
    counts as absent. *)
Definition configured_key (w : world) : option string :=
  match env w !! "GEMINI_API_KEY" with
  | Some k => if is_empty k then None else Some k
  | None => None
  end.

Module UIGenerator.

(** The two private fields of an instance. *)
Record t := Make {
  projectRoot : path;
  apiKey : option string
}.

(** [constructor(projectRoot = process.cwd())]. *)
Definition new (root : option path) : IO t :=
  let* w := read_world in
  ret (Make (default (cwd w) root) (configured_key w)).

(** [generateEnhancedFallbackUI()]. *)
Definition generateEnhancedFallbackUI : string := unlines fallback_lines.

(** [buildUIPrompt(appIdea, options)]: [theme] defaults to ['modern'] and
    [features] to the empty list; [features] is bound and not used. *)
Definition buildUIPrompt (appIdea : string) (options : UIGenerationOptions)
  : string :=
  let theme := default modern (opt_theme options) in
  let features := default [] (features options) in
  unlines (prompt_lines appIdea (theme_text theme)).

Definition endpoint : string :=
  "https://generativelanguage.googleapis.com/v1beta/models/gemini-1.5-flash:generateContent?key=".

(** The request that [callGeminiAPI] sends for [prompt] with the key [key]. *)
Definition gemini_request (key prompt : string) : request :=
  Request (endpoint +:+ key) "POST"
    [("Content-Type", "application/json")]
    (VObj [ ("contents", VArr [VObj [("parts", VArr [VObj [("text", VStr prompt)]])]])
          ; ("generationConfig",
             VObj [ ("temperature", VNum (3 # 10))
                  ; ("maxOutputTokens", VNum (8192 # 1))
                  ; ("topP", VNum (8 # 10))
                  ; ("topK", VNum (10 # 1)) ]) ]).

(** [data.candidates?.[0]?.content?.parts?.[0]?.text || '']: the first
    access is a plain one and throws on [null]. *)
Definition generated_text (data : value) : outcome value :=
  match Js.member data "candidates" with
  | Thrown e => Thrown e
  | Returned candidates =>
      let first := Js.opt_index0 candidates in
      let content := Js.opt_member first "content" in
      let parts := Js.opt_member content "parts" in
      let part := Js.opt_index0 parts in
      Returned (Js.or_else (Js.opt_member part "text") (VStr EmptyString))
  end.

(** The call [this.extractCodeFromResponse(generatedContent)] on a value of
    type [any]: a value that is not a string has no method [match] (a parsed
    object can hold a property of that name, never a function), so the call
    throws. *)
Definition extract_from (generatedContent : value) : outcome string :=
  match generatedContent with
  | VStr s => Returned (extractCodeFromResponse s)
  | _ => Thrown (TypeError "response.match is not a function")
  end.

(** [callGeminiAPI(prompt)]. *)
Definition callGeminiAPI (self : t) (prompt : string) : IO string :=
  match apiKey self with
  | None => ret generateEnhancedFallbackUI
  | Some key =>
      if is_empty key then ret generateEnhancedFallbackUI
      else
        try_catch
          (let* response := fetch (gemini_request key prompt) in
           if negb (ok response)
           then throw (Error ("Gemini API error: " +:+ of_Z (status response)))
           else
             let* data := response_json response in
             let* generatedContent := lift (generated_text data) in
             if negb (Js.truthy generatedContent)
             then throw (Error "Empty response from Gemini API")
             else lift (extract_from generatedContent))
          (λ error, ret generateEnhancedFallbackUI)
  end.

(** [saveGeneratedUI(code)]. *)
Definition saveGeneratedUI (self : t) (code : string) : IO path :=
  let outputDir := join (projectRoot self) "app" in
  let outputPath := join outputDir "GeneratedUI.tsx" in
  let* present := Fs.existsSync outputDir in
  let* _ := (if negb present then Fs.mkdirSync_recursive outputDir else ret tt) in
  let* _ := Fs.writeFileSync outputPath code in
  ret outputPath.

(** [generateUI(options)]. *)
Definition generateUI (self : t) (options : UIGenerationOptions) : IO path :=
  try_catch
    (let prompt := buildUIPrompt (appIdea options) options in
     let* generatedCode := callGeminiAPI self prompt in
     let* outputPath := saveGeneratedUI self generatedCode in
     ret outputPath)
    (λ error, throw error).

Definition requiredElements : list string :=
  [ "'use client'"
  ; "export default function GeneratedUI"
  ; "useFuyouStore"
  ; "onClick"
  ; "console.log" ].

(** [requiredElements.filter(element => !content.includes(element))]. *)
Definition missingElements (content : string) : list string :=
  filter (λ element, includes content element = false) requiredElements.

(** [validateGeneratedUI(filePath)]. *)
Definition validateGeneratedUI (self : t) (filePath : path) : IO bool :=
  try_catch
    (let* present := Fs.existsSync filePath in
     if negb present
     then throw (Error ("Generated file not found: " +:+ String.concat "/" filePath))
     else
       let* content := Fs.readFileSync filePath in
       ret (length (missingElements content) =? 0))
    (λ error, ret false).

End UIGenerator.

(** The exported function [generateUI(options)]: a fresh generator for the
    working directory. *)
Definition generateUI (options : UIGenerationOptions) : IO path :=
  let* generator := UIGenerator.new None in
  UIGenerator.generateUI generator options.

(** ** Vocabulary of the properties *)

(** A fenced code block as the extractor recognises it: the opening fence
    with a tag, a line feed, the body, and the closing fence at the start of
    a line. *)
Definition fenced (tag body : string) : string :=
  Regex.fence +:+ tag +:+ nl +:+ body +:+ Regex.closing.

(** The tags the extractor recognises; the empty text is an untagged
    fence. *)
Definition recognised (tag : string) : Prop := tag ∈ Regex.tag_alternatives.

(** No three backquotes in a row. *)
Definition fence_free (s : string) : Prop := includes s Regex.fence = false.

(** [s] holds a fenced code block somewhere. *)
Definition has_block (s : string) : Prop :=
  ∃ pre tag body post,
    recognised tag ∧ s = pre +:+ fenced tag body +:+ post.

(** The field [candidates[0].content.parts[0].text] of a response body;
    [VUndefined] when any step of the way is missing. *)
Definition text_field (data : value) : value :=
  Js.opt_member
    (Js.opt_index0
       (Js.opt_member
          (Js.opt_member (Js.opt_index0 (Js.opt_member data "candidates"))
             "content")
          "parts"))
    "text".

(** The directory [dir] can be used or made: no file sits at it or above
    it. *)
Definition no_file_on (fs : gmap path node) (dir : path) : Prop :=
  ∀ q content, q `prefix_of` dir → q ≠ [] → fs !! q ≠ Some (File content).

(** The output of a generator rooted at [root] can be written. *)
Definition can_write (fs : gmap path node) (root : path) : Prop :=
  no_file_on fs (join root "app")
  ∧ fs !! join (join root "app") "GeneratedUI.tsx" ≠ Some Dir.

(** A response that opens with a JSON block and continues with a source
    block. *)
Definition json_then_tsx : string :=
  fenced "json" "[1, 2]" +:+ nl +:+ fenced "tsx" "const x = 1".

(** The generated text the network gives for [req], when the exchange
    succeeds with a non-empty text: the promise of [fetch] is fulfilled,
    the status is a success, the body parses and its text field is a
    non-empty string. *)
Definition model_text (w : world) (req : request) : option string :=
  match server w req with
  | Returned r =>
      if ok r then
        match json r with
        | Returned data =>
            match text_field data with
            | VStr s => if is_empty s then None else Some s
            | _ => None
            end
        | Thrown _ => None
        end
      else None
  | Thrown _ => None
  end.

(** A body of the expected shape around the generated text [text]. *)
Definition answer (text : value) : value :=
  VObj [("candidates",
         VArr [VObj [("content",
                      VObj [("parts", VArr [VObj [("text", text)]])])]])].

(** A world whose network always answers 200 with the body [data]. *)
Definition answering_world (key : string) (data : value) : world :=
  World {["GEMINI_API_KEY" := key]} ["proj"] ∅
    (λ _, Returned (Response 200 (Returned data))) [].

(** A world whose network always answers with the status [code] and an
    empty object. *)
Definition failing_world (key : string) (code : Z) : world :=
  World {["GEMINI_API_KEY" := key]} ["proj"] ∅
    (λ _, Returned (Response code (Returned (VObj [])))) [].

(** A world without credential and with an empty disk. *)
Definition bare_world : world :=
  World ∅ ["proj"] ∅ (λ _, Thrown (TypeError "fetch failed")) [].

(** Options that carry a key of their own. *)
Definition override_options : UIGenerationOptions :=
  Options "issue tracker" None None (Some "OPTKEY").

(** A world where a file sits in the place of the output directory. *)
Definition blocked_world : world :=
  World ∅ ["proj"] {[ ["proj"; "app"] := File "not a directory" ]}
    (λ _, Thrown (TypeError "fetch failed")) [].

(** A response that is one block with a tag outside the recognised ones. *)
Definition jsx_block : string := fenced "jsx" "const x = 1".

(** The file tree is well formed: every entry has a name, and its parent is
    a directory. *)
Definition well_formed (fs : gmap path node) : Prop :=
  ∀ p nd, fs !! p = Some nd → p ≠ [] ∧ Fs.node_at fs (Fs.parent p) = Some Dir.

(** A well-formed disk with a project directory that holds a file where the
    output file goes and another file beside it. *)
Definition project_disk : gmap path node :=
  {[ ["proj"] := Dir;
     ["proj"; "app"] := Dir;
     ["proj"; "app"; "GeneratedUI.tsx"] := File "old";
     ["proj"; "app"; "page.tsx"] := File "page" ]}.

Definition project_world : world :=
  World ∅ ["proj"] project_disk (λ _, Thrown (TypeError "fetch failed")) [].

#[global] Instance node_eq_dec : EqDecision node.
Proof. solve_decision. Defined.

#[global] Instance well_formed_dec fs : Decision (well_formed fs).
Proof.
  apply (map_Forall_dec
           (λ p _, p ≠ [] ∧ Fs.node_at fs (Fs.parent p) = Some Dir)).
Defined.

(** A well-formed disk where a file sits in the place of the output
    directory. *)
Definition blocked_disk : gmap path node :=
  {[ ["proj"] := Dir; ["proj"; "app"] := File "not a directory" ]}.

Definition blocked_project_world : world :=
  World ∅ ["proj"] blocked_disk (λ _, Thrown (TypeError "fetch failed")) [].

(** ** The search page ([SearchPageClient])

    The component keeps its state with [useState]; a handler is a function
    from the state it closes over to the next state.  [setTimeout] is
    modelled by returning the callback that runs when the timer fires.
    [String.prototype.toLowerCase] follows the Unicode case tables; it is a
    parameter of the model, and every property holds for any such function. *)

Module SearchPage.

(** The literals of [SearchResult.type]. *)
Inductive result_type := Thread | User | Course.

#[global] Instance result_type_eq_dec : EqDecision result_type.
Proof. solve_decision. Defined.

(** [interface SearchResult]; [None] is an absent optional field. *)
Record SearchResult := Result {
  id : string;
  type : result_type;
  title : string;
  content : option string;
  author : option string;
  course : option string;
  university : option string;
  faculty : option string;
  createdAt : option string;
  commentCount : option Z;
  likeCount : option Z
}.

Module UserInfo.
(** [interface UserInfo]. *)
Record t := Make {
  university : string;
  faculty : string;
  department : string;
  year : string;
  penName : string;
  isLoggedIn : bool;
  completedAt : string
}.
End UserInfo.

(** [type MainSection] and the values of [selectedTab]. *)
Inductive MainSection := search | exams.
Inductive tab := all | threads | users | courses.

Definition mockResults : list SearchResult :=
  [ Result "1" Thread "マクロ経済学 2024年期末試験について"
      (Some "来週のマクロ経済学の期末試験、過去問と傾向が似てるかな？IS-LMモデルは確実に出そうだけど...")
      (Some "経済3年") (Some "マクロ経済学") (Some "東京大学") (Some "経済学部")
      (Some "2024-01-15") (Some 12%Z) (Some 8%Z)
  ; Result "2" User "田中教授" None None None (Some "早稲田大学") (Some "商学部")
      None None None
  ; Result "3" Course "データ構造とアルゴリズム" None None None
      (Some "東京工業大学") (Some "情報理工学院") None None None ].

(** The state of the component. *)
Record State := MkState {
  activeSection : MainSection;
  query : string;
  selectedTab : tab;
  results : list SearchResult;
  isLoading : bool;
  userInfo : option UserInfo.t
}.

Definition setResults (rs : list SearchResult) (st : State) : State :=
  MkState (activeSection st) (query st) (selectedTab st) rs (isLoading st)
    (userInfo st).

Definition setIsLoading (b : bool) (st : State) : State :=
  MkState (activeSection st) (query st) (selectedTab st) (results st) b
    (userInfo st).

(** [Array.prototype.sort(compare)] is stable, and for a comparator that is
    a consistent ordering its result is the one stable sorted arrangement.
    It is embedded as the stable insertion sort: an element goes after the
    elements that [compare] puts strictly before it. *)
Fixpoint insert_sorted {A} (compare : A → A → Z) (x : A) (l : list A) : list A :=
  match l with
  | [] => [x]
  | y :: l' =>
      if (0 <? compare x y)%Z then y :: insert_sorted compare x l'
      else x :: y :: l'
  end.

Definition array_sort {A} (compare : A → A → Z) (l : list A) : list A :=
  foldr (insert_sorted compare) [] l.

(** The comparator of [handleSearch]: results of the user's university
    first, and among them those of the user's faculty first. *)
Definition compare_for (userInfo : UserInfo.t) (a b : SearchResult) : Z :=
  let aMatchesUniversity :=
    bool_decide (university a = Some (UserInfo.university userInfo)) in
  let bMatchesUniversity :=
    bool_decide (university b = Some (UserInfo.university userInfo)) in
  let aMatchesFaculty :=
    bool_decide (faculty a = Some (UserInfo.faculty userInfo)) in
  let bMatchesFaculty :=
    bool_decide (faculty b = Some (UserInfo.faculty userInfo)) in
  if aMatchesUniversity && negb bMatchesUniversity then (-1)%Z
  else if negb aMatchesUniversity && bMatchesUniversity then 1%Z
  else if aMatchesUniversity && bMatchesUniversity then
    (if aMatchesFaculty && negb bMatchesFaculty then (-1)%Z
     else if negb aMatchesFaculty && bMatchesFaculty then 1%Z
     else 0%Z)
  else 0%Z.

Section search.

Variable toLowerCase : string → string.

(** The predicate of [mockResults.filter] in [handleSearch]; an absent
    [content] or [course] gives [undefined], which is falsy. *)
Definition matches_query (searchQuery : string) (result : SearchResult) : bool :=
  includes (toLowerCase (title result)) (toLowerCase searchQuery)
  || match content result with
     | Some c => includes (toLowerCase c) (toLowerCase searchQuery)
     | None => false
     end
  || match course result with
     | Some c => includes (toLowerCase c) (toLowerCase searchQuery)
     | None => false
     end.

(** What the timer callback of [handleSearch] computes. *)
Definition search_results (userInfo : option UserInfo.t) (searchQuery : string)
  : list SearchResult :=
  let filtered := filter (λ result, matches_query searchQuery result = true)
                    mockResults in
  match userInfo with
  | Some u => array_sort (compare_for u) filtered
  | None => filtered
  end.

(** [handleSearch(searchQuery)], created in a render with the state [st]:
    the state right after the call, and the timer callback when one is
    set. *)
Definition handleSearch (st : State) (searchQuery : string)
  : State * option (State → State) :=
  if is_empty (trim searchQuery) then (setResults [] st, None)
  else
    (setIsLoading true st,
     Some (λ st', setIsLoading false
                    (setResults (search_results (userInfo st) searchQuery) st'))).

End search.

(** [getTabResults()]. *)
Definition getTabResults (st : State) : list SearchResult :=
  match selectedTab st with
  | all => results st
  | threads => filter (λ result, type result = Thread) (results st)
  | users => filter (λ result, type result = User) (results st)
  | courses => filter (λ result, type result = Course) (results st)
  end.

(** The count shown on each tab. *)
Definition tab_count (st : State) (t : tab) : nat :=
  match t with
  | all => length (results st)
  | threads => length (filter (λ r, type r = Thread) (results st))
  | users => length (filter (λ r, type r = User) (results st))
  | courses => length (filter (λ r, type r = Course) (results st))
  end.

(** The place of a result in the order of [compare_for]. *)
Definition rank (userInfo : UserInfo.t) (r : SearchResult) : nat :=
  if bool_decide (university r = Some (UserInfo.university userInfo)) then
    if bool_decide (faculty r = Some (UserInfo.faculty userInfo)) then 0 else 1
  else 2.

(** Lower-casing of the ASCII letters, one instance of the parameter. *)
Fixpoint ascii_toLowerCase (s : string) : string :=
  match s with
  | EmptyString => EmptyString
  | String a r =>
      let n := nat_of_ascii a in
      String (if (65 <=? n) && (n <=? 90) then ascii_of_nat (n + 32) else a)
        (ascii_toLowerCase r)
  end.

(** A student of the second mock entry's university. *)
Definition waseda_student : UserInfo.t :=
  UserInfo.Make "早稲田大学" "商学部" "経営" "2" "pen" true "2024-01-01".

End SearchPage.

(** The page of a logged-in student before any search. *)
Definition waseda_page : SearchPage.State :=
  SearchPage.MkState SearchPage.search EmptyString SearchPage.all [] false
    (Some SearchPage.waseda_student).

(** * Properties *)

Local Arguments String.append !_ _ / : simpl nomatch.
Local Arguments Ascii.eqb : simpl never.

(** Decide the byte comparisons left in the goal. *)
Ltac bytes :=
  repeat match goal with
         | |- context [Ascii.eqb ?a ?b] =>
             destruct (Ascii.eqb_spec a b); subst; simpl; try done
         end.

(** ** Text *)

Lemma append_assoc s t u : (s +:+ t) +:+ u = s +:+ t +:+ u.
Proof. induction s as [|a s IH]; simpl; [done | by rewrite IH]. Qed.

Lemma strip_prefix_append p s : strip_prefix p (p +:+ s) = Some s.
Proof.
  induction p as [|a p IH]; simpl; [done |].
  by rewrite Ascii.eqb_refl.
Qed.

Lemma strip_prefix_Some p s r : strip_prefix p s = Some r → s = p +:+ r.
Proof.
  revert s; induction p as [|a p IH]; intros s; simpl.
  - by intros [= ->].
  - destruct s as [|b s]; [done |].
    destruct (Ascii.eqb_spec a b) as [->|]; [|done].
    intros H. by rewrite (IH _ H).
Qed.

Lemma starts_with_append p s : starts_with p (p +:+ s) = true.
Proof. unfold starts_with. by rewrite strip_prefix_append. Qed.

Lemma starts_with_true p s : starts_with p s = true → ∃ r, s = p +:+ r.
Proof.
  unfold starts_with. destruct (strip_prefix p s) as [r|] eqn:E; [|done].
  intros _. exists r. by apply strip_prefix_Some.
Qed.

Lemma includes_append pre p post : includes (pre +:+ p +:+ post) p = true.
Proof.
  induction pre as [|a pre IH]; simpl.
  - destruct (p +:+ post) eqn:E; simpl; rewrite <- E, starts_with_append; done.
  - by destruct (starts_with p _).
Qed.

Lemma includes_tail a s p : includes (String a s) p = false → includes s p = false.
Proof. simpl. by destruct (starts_with p (String a s)). Qed.

Lemma includes_head s p : includes s p = false → starts_with p s = false.
Proof. destruct s; simpl; by destruct (starts_with p _). Qed.

(** ** The regular expressions *)

Lemma fence_not_across_nl c x :
  starts_with Regex.fence c = false →
  starts_with Regex.fence (c +:+ nl +:+ x) = false.
Proof.
  unfold starts_with, Regex.fence, nl.
  destruct c as [|a1 [|a2 [|a3 c]]]; simpl; try done; bytes.
Qed.

Lemma starts_with_cons a p b s :
  starts_with (String a p) (String b s) = Ascii.eqb a b && starts_with p s.
Proof. unfold starts_with. simpl. by destruct (Ascii.eqb a b). Qed.

Lemma closing_not_before a c x :
  fence_free (String a c) →
  starts_with Regex.closing (String a c +:+ Regex.closing +:+ x) = false.
Proof.
  intros Hc. apply includes_tail, includes_head in Hc.
  change (String a c +:+ Regex.closing +:+ x)
    with (String a (c +:+ nl +:+ Regex.fence +:+ x)).
  change Regex.closing with (String "010"%char Regex.fence).
  rewrite starts_with_cons, fence_not_across_nl by done.
  apply andb_false_r.
Qed.

Lemma lazy_body_cons a s :
  Regex.lazy_body (String a s) =
  if starts_with Regex.closing (String a s) then Some EmptyString
  else String a <$> Regex.lazy_body s.
Proof. done. Qed.

Lemma lazy_body_at_closing x :
  Regex.lazy_body (Regex.closing +:+ x) = Some EmptyString.
Proof.
  pose proof (starts_with_append Regex.closing x) as H. revert H.
  change (Regex.closing +:+ x) with (String "010"%char (Regex.fence +:+ x)).
  rewrite lazy_body_cons. by intros ->.
Qed.

Lemma lazy_body_first c x :
  fence_free c → Regex.lazy_body (c +:+ Regex.closing +:+ x) = Some c.
Proof.
  induction c as [|a c IH]; intros Hc.
  - apply lazy_body_at_closing.
  - pose proof (closing_not_before a c x Hc) as H. revert H.
    change (String a c +:+ Regex.closing +:+ x)
      with (String a (c +:+ Regex.closing +:+ x)).
    rewrite lazy_body_cons. intros ->.
    by rewrite IH by (by eapply includes_tail).
Qed.

Lemma lazy_body_Some s b :
  Regex.lazy_body s = Some b → ∃ post, s = b +:+ Regex.closing +:+ post.
Proof.
  revert b; induction s as [|a s IH]; intros b.
  - done.
  - rewrite lazy_body_cons.
    destruct (starts_with Regex.closing (String a s)) eqn:E.
    + intros [= <-]. by apply starts_with_true in E.
    + destruct (Regex.lazy_body s) as [b'|]; [|done].
      intros [= <-]. destruct (IH b' eq_refl) as [post ->].
      by exists post.
Qed.

Lemma lazy_body_closing b post :
  is_Some (Regex.lazy_body (b +:+ Regex.closing +:+ post)).
Proof.
  induction b as [|a b IH].
  - exists EmptyString. apply lazy_body_at_closing.
  - change (String a b +:+ Regex.closing +:+ post)
      with (String a (b +:+ Regex.closing +:+ post)).
    rewrite lazy_body_cons.
    destruct (starts_with _ _); [eauto |].
    destruct IH as [r ->]. eauto.
Qed.

Lemma recognised_cases tag :
  recognised tag ↔
  tag = "typescript" ∨ tag = "tsx" ∨ tag = "ts" ∨ tag = EmptyString.
Proof.
  unfold recognised, Regex.tag_alternatives.
  rewrite !elem_of_cons, elem_of_nil. tauto.
Qed.

(** At an opening fence with a recognised tag the expression matches the
    block up to the first closing fence. *)
Lemma codeBlockRegex_at_block tag body x :
  recognised tag → fence_free body →
  Regex.codeBlockRegex_at (fenced tag body +:+ x) = Some (fenced tag body).
Proof.
  intros Ht Hb. apply recognised_cases in Ht.
  pose proof (lazy_body_first body x Hb) as Hy.
  unfold fenced. rewrite !append_assoc.
  unfold Regex.codeBlockRegex_at. rewrite strip_prefix_append.
  remember (body +:+ Regex.closing +:+ x) as y eqn:Ey. clear Ey.
  destruct Ht as [-> | [-> | [-> | ->]]]; simpl; bytes; by rewrite Hy.
Qed.

Lemma first_alternative_Some {A} (k : string → option A) alts r :
  Regex.first_alternative k alts = Some r → ∃ t, t ∈ alts ∧ k t = Some r.
Proof.
  induction alts as [|t alts IH]; simpl; [done |].
  destruct (k t) as [r'|] eqn:E.
  - intros [= <-]. exists t. split; [left | done].
  - intros H. destruct (IH H) as (t' & ? & ?). exists t'. split; [by right | done].
Qed.

Lemma first_alternative_is_Some {A} (k : string → option A) alts t :
  t ∈ alts → is_Some (k t) → is_Some (Regex.first_alternative k alts).
Proof.
  induction alts as [|t' alts IH]; simpl; [by intros ?%elem_of_nil |].
  intros [-> | Hin]%elem_of_cons Hk.
  - destruct Hk as [r ->]. eauto.
  - destruct (k t'); eauto.
Qed.

(** Whatever the expression matches is a fenced block with a recognised
    tag, and the text starts with it. *)
Lemma codeBlockRegex_at_Some s m :
  Regex.codeBlockRegex_at s = Some m →
  ∃ tag body post, recognised tag ∧ m = fenced tag body ∧ s = m +:+ post.
Proof.
  unfold Regex.codeBlockRegex_at.
  destruct (strip_prefix Regex.fence s) as [r|] eqn:Hs; [|done].
  cbn [mbind option_bind].
  intros (t & Ht & Hk)%first_alternative_Some.
  destruct (strip_prefix (t +:+ nl) r) as [r'|] eqn:Hr; [|done].
  cbn [mbind option_bind] in Hk.
  destruct (Regex.lazy_body r') as [body|] eqn:Hb; [|done].
  cbn [mbind option_bind] in Hk. injection Hk as <-.
  apply strip_prefix_Some in Hs. apply strip_prefix_Some in Hr.
  destruct (lazy_body_Some _ _ Hb) as [post Hpost].
  exists t, body, post. split; [done |]. split; [done |].
  subst.
  transitivity ((Regex.fence +:+ t +:+ nl +:+ body +:+ Regex.closing) +:+ post);
    [by rewrite !append_assoc | done].
Qed.

(** A block with a recognised tag is matched at its opening fence. *)
Lemma codeBlockRegex_at_is_Some tag body x :
  recognised tag → is_Some (Regex.codeBlockRegex_at (fenced tag body +:+ x)).
Proof.
  intros Ht. unfold fenced. rewrite !append_assoc.
  unfold Regex.codeBlockRegex_at. rewrite strip_prefix_append.
  cbn [mbind option_bind].
  apply (first_alternative_is_Some _ _ tag Ht).
  rewrite <- append_assoc, strip_prefix_append. cbn [mbind option_bind].
  destruct (lazy_body_closing body x) as [b ->]. cbn [mbind option_bind]. eauto.
Qed.

(** No match starts before the first fence, not even one that borrows
    backquotes from it. *)
Lemma codeBlockRegex_at_before a pre tag y :
  fence_free (String a pre) → recognised tag →
  Regex.codeBlockRegex_at (String a pre +:+ Regex.fence +:+ tag +:+ nl +:+ y) = None.
Proof.
  intros Hp%includes_head Ht%recognised_cases. revert Hp.
  unfold Regex.codeBlockRegex_at, starts_with, Regex.fence.
  destruct pre as [|b [|c pre]];
    destruct Ht as [-> | [-> | [-> | ->]]]; simpl; bytes.
Qed.

Lemma matches_from_cons k a s :
  Regex.codeBlock_matches_from k (String a s) =
  match k with
  | S k' => Regex.codeBlock_matches_from k' s
  | O => match Regex.codeBlockRegex_at (String a s) with
         | Some m => m :: Regex.codeBlock_matches_from (String.length m - 1) s
         | None => Regex.codeBlock_matches_from 0 s
         end
  end.
Proof. done. Qed.

(** The search passes a fence-free prefix without a match. *)
Lemma matches_skip_prefix pre tag y :
  fence_free pre → recognised tag →
  Regex.codeBlock_matches_from 0 (pre +:+ Regex.fence +:+ tag +:+ nl +:+ y) =
  Regex.codeBlock_matches_from 0 (Regex.fence +:+ tag +:+ nl +:+ y).
Proof.
  intros Hp Ht. induction pre as [|a pre IH]; [done |].
  pose proof (codeBlockRegex_at_before a pre tag y Hp Ht) as Hnone.
  revert Hnone.
  change (String a pre +:+ Regex.fence +:+ tag +:+ nl +:+ y)
    with (String a (pre +:+ Regex.fence +:+ tag +:+ nl +:+ y)).
  rewrite matches_from_cons. intros ->.
  apply IH. by eapply includes_tail.
Qed.

(** The first match of the global search is the first block. *)
Lemma match_codeBlocks_first pre tag body x :
  fence_free pre → recognised tag → fence_free body →
  ∃ more,
    Regex.match_codeBlocks (pre +:+ fenced tag body +:+ x)
    = Some (fenced tag body :: more).
Proof.
  intros Hp Ht Hb.
  pose proof (codeBlockRegex_at_block tag body x Ht Hb) as Hm.
  unfold Regex.match_codeBlocks.
  revert Hm. unfold fenced. rewrite !append_assoc.
  rewrite matches_skip_prefix by done.
  change (Regex.fence +:+ tag +:+ nl +:+ body +:+ Regex.closing +:+ x)
    with (String "`"%char
            (String "`"%char
               (String "`"%char (tag +:+ nl +:+ body +:+ Regex.closing +:+ x)))).
  rewrite matches_from_cons. intros ->. eauto.
Qed.

(** Any match of the global search shows a block in the text. *)
Lemma matches_has_block k s m ms :
  Regex.codeBlock_matches_from k s = m :: ms → has_block s.
Proof.
  revert k; induction s as [|a s IH]; intros k; [done |].
  rewrite matches_from_cons.
  assert (has_block s → has_block (String a s)) as Hcons.
  { intros (pre & tag & body & post & Ht & ->).
    by exists (String a pre), tag, body, post. }
  destruct k as [|k]; [|by intros ?%IH%Hcons].
  destruct (Regex.codeBlockRegex_at (String a s)) as [m'|] eqn:E;
    [|by intros ?%IH%Hcons].
  intros _. apply codeBlockRegex_at_Some in E as (tag & body & post & Ht & -> & E).
  exists EmptyString, tag, body, post. by rewrite E.
Qed.

Lemma no_block_no_match s : ¬ has_block s → Regex.match_codeBlocks s = None.
Proof.
  intros Hno. unfold Regex.match_codeBlocks.
  destruct (Regex.codeBlock_matches_from 0 s) as [|m ms] eqn:E; [done |].
  destruct Hno. by eapply matches_has_block.
Qed.

(** Conversely the search finds a match in every text that holds a block. *)
Lemma has_block_match s : has_block s → Regex.match_codeBlocks s ≠ None.
Proof.
  intros (pre & tag & body & post & Ht & ->).
  unfold Regex.match_codeBlocks.
  enough (∀ k, k = 0 →
            Regex.codeBlock_matches_from k (pre +:+ fenced tag body +:+ post) ≠ [])
    as H by (specialize (H 0 eq_refl); by destruct (Regex.codeBlock_matches_from _ _)).
  induction pre as [|a pre IH]; intros k ->.
  - destruct (codeBlockRegex_at_is_Some tag body post Ht) as [m Hm]. revert Hm.
    change (EmptyString +:+ fenced tag body +:+ post)
      with (fenced tag body +:+ post).
    change (fenced tag body +:+ post)
      with (String "`"%char
              (String "`"%char
                 (String "`"%char
                    ((tag +:+ nl +:+ body +:+ Regex.closing) +:+ post)))).
    rewrite matches_from_cons. by intros ->.
  - change (String a pre +:+ fenced tag body +:+ post)
      with (String a (pre +:+ fenced tag body +:+ post)).
    rewrite matches_from_cons.
    destruct (Regex.codeBlockRegex_at _); [done | by apply IH].
Qed.

(** The global search finds something exactly in the texts that hold a
    block. *)
Lemma match_codeBlocks_iff s : is_Some (Regex.match_codeBlocks s) ↔ has_block s.
Proof.
  split.
  - unfold Regex.match_codeBlocks.
    destruct (Regex.codeBlock_matches_from 0 s) as [|m ms] eqn:E.
    + by intros [? ?].
    + intros _. by eapply matches_has_block.
  - intros H%has_block_match. destruct (Regex.match_codeBlocks s); [eauto | done].
Qed.

Lemma remove_fences_from_cons k a s :
  Regex.remove_fences_from k (String a s) =
  match k with
  | S k' => Regex.remove_fences_from k' s
  | O => match Regex.fenceRegex_at (String a s) with
         | Some n => Regex.remove_fences_from (n - 1) s
         | None => String a (Regex.remove_fences_from 0 s)
         end
  end.
Proof. done. Qed.

Lemma fenceRegex_at_None s :
  starts_with Regex.fence s = false → Regex.fenceRegex_at s = None.
Proof.
  unfold starts_with, Regex.fenceRegex_at.
  by destruct (strip_prefix Regex.fence s).
Qed.

(** Inside a fence-free body nothing is removed; of the closing fence the
    line feed stays. *)
Lemma remove_fences_body c :
  fence_free c →
  Regex.remove_fences_from 0 (c +:+ Regex.closing) = c +:+ nl.
Proof.
  induction c as [|a c IH]; intros Hc; [done |].
  change (String a c +:+ Regex.closing) with (String a (c +:+ Regex.closing)).
  rewrite remove_fences_from_cons, fenceRegex_at_None.
  - rewrite IH by (by eapply includes_tail). done.
  - apply includes_head in Hc.
    apply (fence_not_across_nl (String a c) Regex.fence Hc).
Qed.

Lemma remove_fences_block tag body :
  recognised tag → fence_free body →
  Regex.remove_fences (fenced tag body) = body +:+ nl.
Proof.
  intros Ht%recognised_cases Hb.
  pose proof (remove_fences_body body Hb) as Hy.
  unfold Regex.remove_fences, fenced.
  remember (body +:+ Regex.closing) as y eqn:Ey. clear Ey.
  destruct Ht as [-> | [-> | [-> | ->]]]; unfold Regex.fence, nl; simpl; exact Hy.
Qed.

Lemma not_closing_nl c : String.eqb (c +:+ nl) Regex.closing = false.
Proof.
  apply String.eqb_neq.
  destruct c as [|a1 [|a2 [|a3 [|a4 [|a5 c]]]]]; by intros [=].
Qed.

Lemma remove_final_closing_nl c :
  Regex.remove_final_closing (c +:+ nl) = c +:+ nl.
Proof.
  induction c as [|a c IH]; [done |].
  change (String a c +:+ nl) with (String a (c +:+ nl)) at 1.
  change (Regex.remove_final_closing (String a (c +:+ nl)))
    with (if String.eqb (String a c +:+ nl) Regex.closing then EmptyString
          else String a (Regex.remove_final_closing (c +:+ nl))).
  by rewrite not_closing_nl, IH.
Qed.

(** ** Trimming *)

Lemma ws2_nl a : ws2 a "010" = false.
Proof. unfold ws2. apply andb_false_r. Qed.

Lemma ws3_nl a b : ws3 a b "010" = false.
Proof.
  unfold ws3. change (nat_of_ascii "010") with 10.
  cbn [Nat.eqb Nat.leb andb orb]. by rewrite !andb_false_r.
Qed.

(** A line feed after the text does not complete a white-space character
    begun in it. *)
Lemma ws_width_nl a r : ws_width (String a (r +:+ nl)) = ws_width (String a r).
Proof.
  unfold ws_width. destruct (ws1 a); [done |].
  destruct r as [|b [|c r]]; simpl.
  - by rewrite ws2_nl.
  - destruct (ws2 a b); [done |]. by rewrite ws3_nl.
  - done.
Qed.

Lemma trimStart_from_cons k a r :
  trimStart_from k (String a r) =
  match k with
  | S k' => trimStart_from k' r
  | O => match ws_width (String a r) with
         | O => String a r
         | S w => trimStart_from w r
         end
  end.
Proof. done. Qed.

Lemma blank_from_nl k s :
  is_empty (trimStart_from k (s +:+ nl)) = is_empty (trimStart_from k s).
Proof.
  revert k; induction s as [|a s IH]; intros k.
  - by destruct k.
  - change (String a s +:+ nl) with (String a (s +:+ nl)).
    rewrite !trimStart_from_cons, ws_width_nl.
    destruct k; [|done]. by destruct (ws_width (String a s)).
Qed.

Lemma trimEnd_nl s : trimEnd (s +:+ nl) = trimEnd s.
Proof.
  induction s as [|a s IH]; [done |].
  change (trimEnd (String a s +:+ nl))
    with (if blank (String a s +:+ nl) then EmptyString
          else String a (trimEnd (s +:+ nl))).
  unfold blank, trimStart. by rewrite blank_from_nl, IH.
Qed.

Lemma trim_nl s : trim (s +:+ nl) = trim s.
Proof. unfold trim. by rewrite trimEnd_nl. Qed.

(** ** ResponseExtractor *)

(** The first block decides the result when nothing before it and nothing
    in its body looks like a fence. *)
Lemma extract_first_block pre tag body x :
  fence_free pre → recognised tag → fence_free body →
  extractCodeFromResponse (pre +:+ fenced tag body +:+ x) = trim body.
Proof.
  intros Hp Ht Hb. unfold extractCodeFromResponse.
  destruct (match_codeBlocks_first pre tag body x Hp Ht Hb) as [more ->].
  by rewrite remove_fences_block, remove_final_closing_nl, trim_nl.
Qed.

Lemma extract_no_block s :
  ¬ has_block s → extractCodeFromResponse s = trim s.
Proof.
  intros H. unfold extractCodeFromResponse. by rewrite no_block_no_match.
Qed.

Lemma fence_free_no_block s : fence_free s → ¬ has_block s.
Proof.
  intros Hs (pre & tag & body & post & _ & ->).
  unfold fence_free, fenced in Hs. rewrite append_assoc in Hs.
  by rewrite includes_append in Hs.
Qed.

(** The extractor at work: both blocks are found and the first one is
    used; three backquotes inside a body are removed with the fences; white
    space beyond ASCII (here U+00A0 and U+3000) is trimmed. *)
Example two_blocks_found :
  Regex.match_codeBlocks (fenced "ts" "a" +:+ " and " +:+ fenced EmptyString "b")
  = Some [fenced "ts" "a"; fenced EmptyString "b"].
Proof. by vm_compute. Qed.

Example inner_fence_removed :
  extractCodeFromResponse (fenced "ts" "const s = '```'") = "const s = ''".
Proof. by vm_compute. Qed.

(** Three backquotes inside the body of a block are cut out with the fences:
    the first replacement of the clean-up runs over the whole match. *)
Example inner_backquotes_cut_out :
  extractCodeFromResponse (fenced "ts" "const s = `````") = "const s = ``"
  ∧ extractCodeFromResponse (fenced "ts" "const s = `````") ≠ trim "const s = `````".
Proof. split; by vm_compute. Qed.

Example unicode_space_trimmed :
  trim (String "194" (String "160" ("a b" +:+ String "227" (String "128" (String "128" EmptyString)))))
  = "a b".
Proof. by vm_compute. Qed.

(** C2, as the code has it.  For a text that holds exactly one fenced code
    block of the form the extractor looks for (an opening fence with one of
    the tags typescript, tsx, ts or none, a line feed, the body, a line feed
    and the closing fence) and no three backquotes in a row anywhere else,
    neither before the block, nor in its body, nor after it,
    [extractCodeFromResponse] returns the body of the block, trimmed and
    without fences and tag.  For a text that holds no such block it returns
    the whole text, trimmed.  For the text made of the tsx block with body
    [const x = 1] it returns exactly [const x = 1]. *)
Theorem extractCodeFromResponse_spec :
  (∀ pre tag body post,
     recognised tag → fence_free pre → fence_free body → fence_free post →
     extractCodeFromResponse (pre +:+ fenced tag body +:+ post) = trim body)
  ∧ (∀ input, ¬ has_block input → extractCodeFromResponse input = trim input)
  ∧ extractCodeFromResponse (fenced "tsx" "const x = 1") = "const x = 1".
Proof.
  split; [|split].
  - intros pre tag body post Ht Hp Hb _. by apply extract_first_block.
  - apply extract_no_block.
  - by vm_compute.
Qed.

Lemma extractCodeFromResponse_spec_witness :
  extractCodeFromResponse
    ("Here is the component:" +:+ fenced "ts" "  let y = 2  " +:+ " Enjoy.")
  = trim "  let y = 2  "
  ∧ extractCodeFromResponse "  let y = 2  " = trim "  let y = 2  ".
Proof.
  split.
  - apply (proj1 extractCodeFromResponse_spec
             "Here is the component:" "ts" "  let y = 2  " " Enjoy.").
    + apply recognised_cases. auto.
    + reflexivity.
    + reflexivity.
    + reflexivity.
  - apply (proj1 (proj2 extractCodeFromResponse_spec) "  let y = 2  ").
    apply fence_free_no_block. reflexivity.
Defined.

(** C2 does not hold for every fenced code block: a block tagged [jsx] is
    not recognised, and the text comes back whole, fences and tag
    included. *)
Lemma other_tag_block_not_extracted :
  extractCodeFromResponse jsx_block = jsx_block
  ∧ extractCodeFromResponse jsx_block ≠ trim "const x = 1".
Proof. split; by vm_compute. Qed.

(** C6, as the code has it.  When the first fence of the text opens a block
    with one of the tags typescript, tsx, ts or none, [extractCodeFromResponse]
    returns the body of that first block, whatever blocks follow it and
    whatever their tags are. *)
Theorem extract_first_of_many pre tag1 body1 between tag2 body2 post :
  recognised tag1 → fence_free pre → fence_free body1 →
  extractCodeFromResponse
    (pre +:+ fenced tag1 body1 +:+ between +:+ fenced tag2 body2 +:+ post)
  = trim body1.
Proof.
  intros Ht Hp Hb.
  exact (extract_first_block pre tag1 body1
           (between +:+ fenced tag2 body2 +:+ post) Hp Ht Hb).
Qed.

Lemma extract_first_of_many_witness :
  extractCodeFromResponse
    ("A:" +:+ fenced "tsx" "const a = 1" +:+ " B:"
     +:+ fenced "json" "[1, 2]" +:+ " done")
  = trim "const a = 1".
Proof.
  apply (extract_first_of_many "A:" "tsx" "const a = 1" " B:" "json" "[1, 2]" " done").
  - apply recognised_cases. auto.
  - reflexivity.
  - reflexivity.
Defined.

(** C6 does not hold as stated: a JSON block that comes first is not the one
    extracted.  Its opening fence is not recognised, its closing fence is
    read as an untagged opening fence, and the result is the body of the
    source block that follows. *)
Lemma json_block_first_not_extracted :
  extractCodeFromResponse json_then_tsx = "const x = 1"
  ∧ extractCodeFromResponse json_then_tsx ≠ trim "[1, 2]".
Proof. split; by vm_compute. Qed.

(** ** GenerationClient *)

Local Arguments UIGenerator.generateEnhancedFallbackUI : simpl never.
Local Arguments UIGenerator.buildUIPrompt : simpl never.
Local Arguments extractCodeFromResponse : simpl never.
Local Arguments UIGenerator.gemini_request : simpl never.
Local Arguments of_Z : simpl never.

Lemma generated_text_cases data :
  (∃ e, UIGenerator.generated_text data = Thrown e ∧ text_field data = VUndefined)
  ∨ UIGenerator.generated_text data
    = Returned (Js.or_else (text_field data) (VStr EmptyString)).
Proof.
  unfold UIGenerator.generated_text, text_field.
  destruct data; simpl; eauto.
Qed.

(** What a call with a configured key does: one request, and the extracted
    text of a successful exchange or else the template. *)
Lemma callGeminiAPI_with_key root key prompt w :
  is_empty key = false →
  UIGenerator.callGeminiAPI (UIGenerator.Make root (Some key)) prompt w
  = (Returned (match model_text w (UIGenerator.gemini_request key prompt) with
               | Some s => extractCodeFromResponse s
               | None => UIGenerator.generateEnhancedFallbackUI
               end),
     sent w (UIGenerator.gemini_request key prompt)).
Proof.
  intros Hk. unfold UIGenerator.callGeminiAPI, model_text. simpl. rewrite Hk.
  unfold try_catch, bind, fetch, throw, ret, response_json, lift, sent.
  destruct (server w _) as [r|e]; [|done].
  destruct (ok r); simpl; [|done].
  destruct (json r) as [data|e]; [|done].
  destruct (generated_text_cases data) as [(e & -> & ->) | ->]; [done |].
  unfold Js.or_else.
  destruct (text_field data) as [| |b|q|s|items|props]; simpl; try done.
  - by destruct b.
  - destruct (Qeq_bool q 0) eqn:E; simpl; by rewrite ?E.
  - by destruct s.
Qed.

Lemma callGeminiAPI_without_key root key prompt w :
  key = None ∨ key = Some EmptyString →
  UIGenerator.callGeminiAPI (UIGenerator.Make root key) prompt w
  = (Returned UIGenerator.generateEnhancedFallbackUI, w).
Proof. by intros [-> | ->]. Qed.

Lemma callGeminiAPI_returns self prompt w :
  ∃ code w', UIGenerator.callGeminiAPI self prompt w = (Returned code, w').
Proof.
  destruct self as [root key].
  destruct key as [key|]; [|by eexists _, _].
  destruct (is_empty key) eqn:Hk.
  - destruct key; [|done]. by eexists _, _.
  - rewrite callGeminiAPI_with_key by done. by eexists _, _.
Qed.

(** C1. [callGeminiAPI] never throws and always returns text.  Without a
    credential (no key, or an empty one) it returns exactly the template of
    [generateEnhancedFallbackUI] and leaves the world as it was, so no request
    is sent.  With a credential, when the answer has a status outside
    200..299, or its body lacks the text field or holds [null] or an empty
    text there, it returns exactly the template as well. *)
Theorem callGeminiAPI_always_returns self prompt w :
  (∃ code w', UIGenerator.callGeminiAPI self prompt w = (Returned code, w'))
  ∧ (UIGenerator.apiKey self = None ∨ UIGenerator.apiKey self = Some EmptyString →
     UIGenerator.callGeminiAPI self prompt w
     = (Returned UIGenerator.generateEnhancedFallbackUI, w))
  ∧ (∀ key r,
       UIGenerator.apiKey self = Some key → is_empty key = false →
       server w (UIGenerator.gemini_request key prompt) = Returned r →
       ok r = false
       ∨ (∃ data, json r = Returned data
                  ∧ (text_field data = VUndefined
                     ∨ text_field data = VNull
                     ∨ text_field data = VStr EmptyString)) →
       fst (UIGenerator.callGeminiAPI self prompt w)
       = Returned UIGenerator.generateEnhancedFallbackUI).
Proof.
  split; [apply callGeminiAPI_returns |].
  destruct self as [root key]. simpl. split.
  - apply callGeminiAPI_without_key.
  - intros k r -> Hk Hr Hfail.
    rewrite callGeminiAPI_with_key by done. simpl.
    unfold model_text. rewrite Hr.
    destruct Hfail as [-> | (data & -> & [-> | [-> | ->]])]; [done | | |];
      by destruct (ok r).
Qed.

Lemma callGeminiAPI_always_returns_witness :
  UIGenerator.callGeminiAPI (UIGenerator.Make ["proj"] None) "a prompt" bare_world
  = (Returned UIGenerator.generateEnhancedFallbackUI, bare_world)
  ∧ fst (UIGenerator.callGeminiAPI (UIGenerator.Make ["proj"] (Some "k"))
           "a prompt" (failing_world "k" 500))
    = Returned UIGenerator.generateEnhancedFallbackUI.
Proof.
  split.
  - apply (proj1 (proj2 (callGeminiAPI_always_returns
                           (UIGenerator.Make ["proj"] None) "a prompt" bare_world))).
    left. reflexivity.
  - apply (proj2 (proj2 (callGeminiAPI_always_returns
                           (UIGenerator.Make ["proj"] (Some "k")) "a prompt"
                           (failing_world "k" 500)))
             "k" (Response 500 (Returned (VObj [])))).
    + reflexivity.
    + reflexivity.
    + reflexivity.
    + left. reflexivity.
Defined.

(** C8 fails on the success path: the guard against an empty answer looks
    at the raw text, before extraction.  An answer that is a single space
    passes the guard and is trimmed to the empty text, which
    [callGeminiAPI] returns. *)
Theorem blank_answer_gives_empty_source :
  fst (UIGenerator.callGeminiAPI (UIGenerator.Make ["proj"] (Some "k"))
         "a prompt" (answering_world "k" (answer (VStr " "))))
  = Returned EmptyString.
Proof. by vm_compute. Qed.

(** The same for an answer that is an empty fenced block. *)
Lemma empty_block_gives_empty_source :
  fst (UIGenerator.callGeminiAPI (UIGenerator.Make ["proj"] (Some "k"))
         "a prompt" (answering_world "k" (answer (VStr (fenced "tsx" EmptyString)))))
  = Returned EmptyString.
Proof. by vm_compute. Qed.

(** On the fallback path the text is never empty. *)
Lemma fallback_not_empty : is_empty UIGenerator.generateEnhancedFallbackUI = false.
Proof. by vm_compute. Qed.

(** ** The file system *)

Lemma parent_join dir name : Fs.parent (join dir name) = dir.
Proof. apply removelast_last. Qed.

Lemma join_not_nil dir name : join dir name ≠ [].
Proof. unfold join. by destruct dir. Qed.

Lemma node_at_join fs dir name :
  Fs.node_at fs (join dir name) = fs !! join dir name.
Proof. unfold Fs.node_at. pose proof (join_not_nil dir name). by destruct (join dir name). Qed.

(** [make_dirs] succeeds when no file is in the way; afterwards every
    directory on the way exists, and nothing else has changed. *)
Lemma make_dirs_ok names : ∀ base fs,
  (∀ q content, q `prefix_of` names → q ≠ [] →
                fs !! (base ++ q) ≠ Some (File content)) →
  ∃ fs', Fs.make_dirs base names fs = Returned fs'
    ∧ (∀ q, q `prefix_of` names → q ≠ [] → fs' !! (base ++ q) = Some Dir)
    ∧ (∀ p, fs' !! p = fs !! p ∨ (fs !! p = None ∧ fs' !! p = Some Dir))
    ∧ (∀ p, length (base ++ names) < length p → fs' !! p = fs !! p).
Proof.
  induction names as [|n rest IH]; intros base fs Hclear; simpl.
  - exists fs. split; [done |]. split; [|split; eauto].
    intros q Hq Hne. apply prefix_nil_inv in Hq. done.
  - assert (∀ q, base ++ n :: q = join base n ++ q) as Hcons.
    { intros q. unfold join. by rewrite <- app_assoc. }
    destruct (fs !! join base n) as [[c|]|] eqn:E.
    { exfalso. apply (Hclear [n] c); [by apply prefix_cons, prefix_nil | done |].
      by rewrite Hcons, app_nil_r. }
    +
      destruct (IH (join base n) fs) as (fs' & -> & Hdirs & Hsame & Hlong).
      { intros q c Hq Hne. rewrite <- Hcons. apply Hclear; [by apply prefix_cons | done]. }
      exists fs'. split; [done |]. split; [|split].
      * intros q Hq Hne. destruct q as [|n' q]; [done |].
        apply prefix_cons_inv_1 in Hq as Hn. subst n'.
        apply prefix_cons_inv_2 in Hq. rewrite Hcons.
        destruct q as [|n2 q]; [|by apply Hdirs].
        rewrite app_nil_r. destruct (Hsame (join base n)) as [-> | [? ?]]; [|done].
        done.
      * done.
      * intros p Hp. apply Hlong. by rewrite <- Hcons.
    + destruct (IH (join base n) (<[join base n := Dir]> fs))
        as (fs' & -> & Hdirs & Hsame & Hlong).
      { intros q c Hq Hne. rewrite lookup_insert_ne.
        - rewrite <- Hcons. apply Hclear; [by apply prefix_cons | done].
        - intros Heq. apply (f_equal length) in Heq.
          rewrite length_app in Heq. destruct q; [done | simpl in Heq; lia]. }
      exists fs'. split; [done |]. split; [|split].
      * intros q Hq Hne. destruct q as [|n' q]; [done |].
        apply prefix_cons_inv_1 in Hq as Hn. subst n'.
        apply prefix_cons_inv_2 in Hq. rewrite Hcons.
        destruct q as [|n2 q]; [|by apply Hdirs].
        rewrite app_nil_r. destruct (Hsame (join base n)) as [-> | [? ?]]; [|done].
        apply lookup_insert_eq.
      * intros p. destruct (decide (p = join base n)) as [-> | Hne].
        -- right. split; [done |].
           destruct (Hsame (join base n)) as [-> | [? ?]]; [|done].
           apply lookup_insert_eq.
        -- destruct (Hsame p) as [-> | [? ?]].
           ++ left. by apply lookup_insert_ne.
           ++ right. split; [|done]. by rewrite lookup_insert_ne in H.
      * intros p Hp. rewrite Hlong by (by rewrite <- Hcons).
        apply lookup_insert_ne. intros <-.
        unfold join in Hp. rewrite !length_app in Hp. simpl in Hp. lia.
Qed.

Lemma writeFileSync_ok p data w :
  Fs.node_at (files w) p ≠ Some Dir →
  Fs.node_at (files w) (Fs.parent p) = Some Dir →
  Fs.writeFileSync p data w
  = (Returned tt, Fs.with_files w (<[p := File data]> (files w))).
Proof.
  intros Hp Hparent. unfold Fs.writeFileSync. rewrite Hparent.
  by destruct (Fs.node_at (files w) p) as [[c|]|].
Qed.

Lemma writeFileSync_Returned p data w u w' :
  Fs.writeFileSync p data w = (Returned u, w') →
  Fs.node_at (files w) p ≠ Some Dir
  ∧ Fs.node_at (files w) (Fs.parent p) = Some Dir
  ∧ w' = Fs.with_files w (<[p := File data]> (files w)).
Proof.
  unfold Fs.writeFileSync.
  destruct (Fs.node_at (files w) p) as [[c|]|];
    destruct (Fs.node_at (files w) (Fs.parent p)) as [[c'|]|];
    intros [= <-]; done.
Qed.

Lemma writeFileSync_requests p data w :
  requests (snd (Fs.writeFileSync p data w)) = requests w.
Proof.
  unfold Fs.writeFileSync.
  destruct (Fs.node_at (files w) p) as [[c|]|];
    by destruct (Fs.node_at (files w) (Fs.parent p)) as [[c'|]|].
Qed.

(** ** ArtifactWriter *)

Section saveGeneratedUI.

Variables (self : UIGenerator.t) (code : string) (w : world).

Local Abbreviation dir := (join (UIGenerator.projectRoot self) "app").
Local Abbreviation target := (join dir "GeneratedUI.tsx").

Lemma target_not_dir : target ≠ dir.
Proof.
  intros H. apply (f_equal length) in H.
  unfold join in H. rewrite !length_app in H. simpl in H. lia.
Qed.

(** The two ways through [saveGeneratedUI]: the directory is there, or it
    is made first. *)
Lemma saveGeneratedUI_unfold :
  UIGenerator.saveGeneratedUI self code w =
  match files w !! dir with
  | Some _ =>
      match Fs.writeFileSync target code w with
      | (Returned _, w') => (Returned target, w')
      | (Thrown e, w') => (Thrown e, w')
      end
  | None =>
      match Fs.make_dirs [] dir (files w) with
      | Returned fs =>
          match Fs.writeFileSync target code (Fs.with_files w fs) with
          | (Returned _, w') => (Returned target, w')
          | (Thrown e, w') => (Thrown e, w')
          end
      | Thrown e => (Thrown e, w)
      end
  end.
Proof.
  unfold UIGenerator.saveGeneratedUI, bind, Fs.existsSync, ret.
  rewrite node_at_join.
  destruct (files w !! dir) as [nd|]; simpl.
  - done.
  - unfold Fs.mkdirSync_recursive.
    destruct (Fs.make_dirs [] dir (files w)); [|done].
    by destruct (Fs.writeFileSync target code _) as [[?|?] ?].
Qed.

Lemma saveGeneratedUI_requests :
  requests (snd (UIGenerator.saveGeneratedUI self code w)) = requests w.
Proof.
  rewrite saveGeneratedUI_unfold.
  destruct (files w !! dir).
  - pose proof (writeFileSync_requests target code w) as H.
    by destruct (Fs.writeFileSync target code w) as [[?|?] ?].
  - destruct (Fs.make_dirs [] dir (files w)) as [fs|]; [|done].
    pose proof (writeFileSync_requests target code (Fs.with_files w fs)) as H.
    by destruct (Fs.writeFileSync target code _) as [[?|?] ?].
Qed.

(** A successful save returns the fixed path and leaves the directory and
    the file in place. *)
Lemma saveGeneratedUI_Returned p w1 :
  UIGenerator.saveGeneratedUI self code w = (Returned p, w1) →
  p = target
  ∧ files w1 !! dir = Some Dir
  ∧ files w1 !! target = Some (File code).
Proof.
  rewrite saveGeneratedUI_unfold.
  assert (∀ w0, Fs.writeFileSync target code w0 = (Returned tt, w1) →
                files w1 !! dir = Some Dir ∧ files w1 !! target = Some (File code))
    as Hwrite.
  { intros w0 (_ & Hparent & ->)%writeFileSync_Returned.
    rewrite parent_join, node_at_join in Hparent. simpl.
    rewrite lookup_insert_eq, lookup_insert_ne by apply target_not_dir. done. }
  destruct (files w !! dir).
  - destruct (Fs.writeFileSync target code w) as [[[]|?] ?] eqn:E; [|done].
    intros [= <- <-]. split; [done |]. by eapply Hwrite.
  - destruct (Fs.make_dirs [] dir (files w)) as [fs|]; [|done].
    destruct (Fs.writeFileSync target code _) as [[[]|?] ?] eqn:E; [|done].
    intros [= <- <-]. split; [done |]. by eapply Hwrite.
Qed.

(** With the directory in place, saving is one write. *)
Lemma saveGeneratedUI_in_place :
  files w !! dir = Some Dir → files w !! target ≠ Some Dir →
  UIGenerator.saveGeneratedUI self code w
  = (Returned target, Fs.with_files w (<[target := File code]> (files w))).
Proof.
  intros Hdir Htarget. rewrite saveGeneratedUI_unfold, Hdir.
  rewrite writeFileSync_ok; [done | |].
  - by rewrite node_at_join.
  - by rewrite parent_join, node_at_join.
Qed.

Lemma saveGeneratedUI_ok :
  can_write (files w) (UIGenerator.projectRoot self) →
  ∃ w', UIGenerator.saveGeneratedUI self code w = (Returned target, w')
    ∧ files w' !! dir = Some Dir
    ∧ files w' !! target = Some (File code)
    ∧ (files w !! dir = None →
       ∀ q, q `prefix_of` dir → q ≠ [] → files w' !! q = Some Dir).
Proof.
  intros [Hclear Htarget].
  destruct (files w !! dir) as [[c|]|] eqn:Hdir.
  - by destruct (Hclear dir c); [| apply join_not_nil |].
  - rewrite saveGeneratedUI_in_place by done. eexists. split; [done |]. simpl.
    rewrite lookup_insert_eq, lookup_insert_ne by apply target_not_dir. done.
  - destruct (make_dirs_ok dir [] (files w)) as (fs & Hmk & Hdirs & _ & Hlong).
    { intros q c Hq Hne. by apply Hclear. }
    assert (fs !! dir = Some Dir) as Hfs by (apply (Hdirs dir); [done | apply join_not_nil]).
    assert (fs !! target = files w !! target) as Hkeep.
    { apply Hlong. unfold join. rewrite !length_app. simpl. lia. }
    rewrite saveGeneratedUI_unfold, Hdir, Hmk.
    rewrite writeFileSync_ok.
    + eexists. split; [done |]. simpl.
      rewrite lookup_insert_eq, lookup_insert_ne by apply target_not_dir.
      split; [done |]. split; [done |]. intros _ q Hq Hne.
      rewrite lookup_insert_ne; [by apply (Hdirs q) |].
      intros <-. apply prefix_length in Hq.
      unfold join in Hq. rewrite !length_app in Hq. simpl in Hq. lia.
    + simpl. by rewrite node_at_join, Hkeep.
    + simpl. by rewrite parent_join, node_at_join.
Qed.

End saveGeneratedUI.

(** C4. When nothing blocks the output (no file sits at or above
    [<projectRoot>/app], and [GeneratedUI.tsx] there is not a directory),
    [saveGeneratedUI] returns the path [<projectRoot>/app/GeneratedUI.tsx],
    after which the directory exists and the file holds the text.  An absent
    directory is made together with its missing ancestors; a directory that
    is already there raises no error and only the file changes.  Saving a
    second text after a successful save succeeds again, returns the same path
    and leaves exactly the second text in the file. *)
Theorem saveGeneratedUI_spec self code w :
  let dir := join (UIGenerator.projectRoot self) "app" in
  let target := join dir "GeneratedUI.tsx" in
  (can_write (files w) (UIGenerator.projectRoot self) →
   ∃ w', UIGenerator.saveGeneratedUI self code w = (Returned target, w')
     ∧ files w' !! dir = Some Dir
     ∧ files w' !! target = Some (File code)
     ∧ (files w !! dir = None →
        ∀ q, q `prefix_of` dir → q ≠ [] → files w' !! q = Some Dir)
     ∧ (files w !! dir = Some Dir →
        files w' = <[target := File code]> (files w)))
  ∧ (∀ code2 p w1,
       UIGenerator.saveGeneratedUI self code w = (Returned p, w1) →
       ∃ w2, UIGenerator.saveGeneratedUI self code2 w1 = (Returned p, w2)
         ∧ files w2 = <[p := File code2]> (files w1)
         ∧ files w2 !! p = Some (File code2)).
Proof.
  intros dir target. split.
  - intros Hcan.
    destruct (saveGeneratedUI_ok self code w Hcan) as (w' & Hsave & Hdir & Hfile & Hmade).
    exists w'. repeat split; try done.
    intros Hthere. rewrite saveGeneratedUI_in_place in Hsave by (done || apply Hcan).
    by injection Hsave as <-.
  - intros code2 p w1 (-> & Hdir & Hfile)%saveGeneratedUI_Returned.
    rewrite saveGeneratedUI_in_place by (done || by rewrite Hfile).
    eexists. split; [done |]. simpl. split; [done |]. apply lookup_insert_eq.
Qed.

Lemma saveGeneratedUI_spec_witness :
  ∃ w1 w2,
    UIGenerator.saveGeneratedUI (UIGenerator.Make ["proj"] None) "first" bare_world
    = (Returned ["proj"; "app"; "GeneratedUI.tsx"], w1)
    ∧ files w1 !! ["proj"; "app"] = Some Dir
    ∧ UIGenerator.saveGeneratedUI (UIGenerator.Make ["proj"] None) "second" w1
      = (Returned ["proj"; "app"; "GeneratedUI.tsx"], w2)
    ∧ files w2 !! ["proj"; "app"; "GeneratedUI.tsx"] = Some (File "second").
Proof.
  pose proof (saveGeneratedUI_spec (UIGenerator.Make ["proj"] None) "first" bare_world)
    as [Hfirst Hsecond].
  destruct Hfirst as (w1 & Hsave & Hdir & _).
  { split.
    - intros q content _ _. simpl. by rewrite lookup_empty.
    - simpl. by rewrite lookup_empty. }
  destruct (Hsecond "second" _ w1 Hsave) as (w2 & Hsave2 & _ & Hfile2).
  exists w1, w2. repeat split; assumption.
Defined.

(** ** ArtifactValidator *)

Lemma missingElements_among content (l : list string) :
  filter (λ element, includes content element = false) l = []
  ↔ ∀ m, m ∈ l → includes content m = true.
Proof.
  induction l as [|e l IH].
  - split; [by intros _ m ?%elem_of_nil | done].
  - rewrite filter_cons. case_decide as He.
    + split; [done |]. intros H. specialize (H e ltac:(by left)). congruence.
    + rewrite IH. split.
      * intros H m [-> | ?]%elem_of_cons; [by destruct (includes content e) | by apply H].
      * intros H m ?. apply H. by right.
Qed.

Lemma length_zero_nil {A} (l : list A) : (length l =? 0) = true ↔ l = [].
Proof. destruct l; simpl; split; done. Qed.

Lemma validateGeneratedUI_unfold self filePath w :
  UIGenerator.validateGeneratedUI self filePath w =
  (Returned (match Fs.node_at (files w) filePath with
             | Some (File content) =>
                 length (UIGenerator.missingElements content) =? 0
             | _ => false
             end), w).
Proof.
  unfold UIGenerator.validateGeneratedUI, try_catch, bind, Fs.existsSync,
    Fs.readFileSync, throw, ret.
  destruct (Fs.node_at (files w) filePath) as [[content|]|] eqn:E;
    simpl; by rewrite ?E.
Qed.

(** C3. [validateGeneratedUI] never throws and changes nothing.  Its verdict
    is a pass exactly when the path holds a file whose content includes all
    five required markers, which is exactly when the list of missing markers
    is empty; a path that does not exist gives a fail. *)
Theorem validateGeneratedUI_spec self filePath w :
  ∃ verdict,
    UIGenerator.validateGeneratedUI self filePath w = (Returned verdict, w)
    ∧ (verdict = true ↔
       ∃ content, Fs.node_at (files w) filePath = Some (File content)
                  ∧ ∀ m, m ∈ UIGenerator.requiredElements →
                         includes content m = true)
    ∧ (∀ content, Fs.node_at (files w) filePath = Some (File content) →
                  (verdict = true ↔ UIGenerator.missingElements content = []))
    ∧ (Fs.node_at (files w) filePath = None → verdict = false).
Proof.
  rewrite validateGeneratedUI_unfold. eexists. split; [done |].
  destruct (Fs.node_at (files w) filePath) as [[content|]|].
  - rewrite length_zero_nil. split; [|split; [|done]].
    + unfold UIGenerator.missingElements. rewrite missingElements_among.
      split; [intros H; by exists content | by intros (c & [= <-] & H)].
    + intros c [= <-]. apply length_zero_nil.
  - split; [|done]. split; [done |]. by intros (c & [=] & _).
  - split; [|done]. split; [done |]. by intros (c & [=] & _).
Qed.

Lemma validateGeneratedUI_spec_witness :
  ∃ verdict,
    UIGenerator.validateGeneratedUI (UIGenerator.Make ["proj"] None)
      ["proj"; "app"; "GeneratedUI.tsx"] bare_world
    = (Returned verdict, bare_world)
    ∧ verdict = false.
Proof.
  destruct (validateGeneratedUI_spec (UIGenerator.Make ["proj"] None)
              ["proj"; "app"; "GeneratedUI.tsx"] bare_world)
    as (verdict & Hrun & _ & _ & Habsent).
  exists verdict. split; [exact Hrun |]. apply Habsent. reflexivity.
Defined.

(** ** The orchestrator *)

Lemma generateUI_unfold self options w :
  UIGenerator.generateUI self options w =
  match UIGenerator.callGeminiAPI self
          (UIGenerator.buildUIPrompt (appIdea options) options) w with
  | (Returned code, w1) => UIGenerator.saveGeneratedUI self code w1
  | (Thrown e, w1) => (Thrown e, w1)
  end.
Proof.
  unfold UIGenerator.generateUI, try_catch, bind, ret, throw.
  destruct (UIGenerator.callGeminiAPI _ _ w) as [[code|e] w1]; [|done].
  by destruct (UIGenerator.saveGeneratedUI self code w1) as [[p|e] w2].
Qed.

(** The exported function runs the instance made from the working
    directory and the environment. *)
Lemma generateUI_instance options w :
  generateUI options w =
  UIGenerator.generateUI (UIGenerator.Make (cwd w) (configured_key w)) options w.
Proof. done. Qed.

Lemma configured_key_not_empty w key :
  configured_key w = Some key → is_empty key = false.
Proof.
  unfold configured_key. destruct (env w !! "GEMINI_API_KEY") as [k|]; [|done].
  destruct (is_empty k) eqn:E; [done |]. by intros [= <-].
Qed.

Lemma fallback_has_all_markers :
  UIGenerator.missingElements UIGenerator.generateEnhancedFallbackUI = [].
Proof. by vm_compute. Qed.

(** C7. The prompt is built by a pure function and [callGeminiAPI] always
    returns, so the writer is the only stage of [generateUI] that can throw:
    what [saveGeneratedUI] throws comes out of [generateUI] as the same
    error, and whatever [generateUI] throws was thrown by
    [saveGeneratedUI]. *)
Theorem generateUI_throws_what_writer_throws self options w :
  let prompt := UIGenerator.buildUIPrompt (appIdea options) options in
  (∃ code w1, UIGenerator.callGeminiAPI self prompt w = (Returned code, w1))
  ∧ (∀ code w1 e w2,
       UIGenerator.callGeminiAPI self prompt w = (Returned code, w1) →
       UIGenerator.saveGeneratedUI self code w1 = (Thrown e, w2) →
       UIGenerator.generateUI self options w = (Thrown e, w2))
  ∧ (∀ e w2,
       UIGenerator.generateUI self options w = (Thrown e, w2) →
       ∃ code w1,
         UIGenerator.callGeminiAPI self prompt w = (Returned code, w1)
         ∧ UIGenerator.saveGeneratedUI self code w1 = (Thrown e, w2)).
Proof.
  intros prompt.
  destruct (callGeminiAPI_returns self prompt w) as (code & w1 & Hcall).
  split; [by exists code, w1 |]. split.
  - intros code' w1' e w2 Hcall' Hsave.
    rewrite generateUI_unfold. fold prompt. by rewrite Hcall'.
  - intros e w2. rewrite generateUI_unfold. fold prompt. rewrite Hcall.
    intros Hsave. by exists code, w1.
Qed.

Lemma generateUI_throws_what_writer_throws_witness :
  UIGenerator.generateUI (UIGenerator.Make ["proj"] None)
    (Options "issue tracker" None None None) blocked_world
  = (Thrown (SystemError "ENOTDIR" ["proj"; "app"; "GeneratedUI.tsx"]),
     blocked_world).
Proof.
  apply (proj1 (proj2 (generateUI_throws_what_writer_throws
                         (UIGenerator.Make ["proj"] None)
                         (Options "issue tracker" None None None)
                         blocked_world))
           UIGenerator.generateEnhancedFallbackUI blocked_world).
  - reflexivity.
  - vm_compute. reflexivity.
Defined.

(** C5. Without a credential and with a writable output place, the exported
    [generateUI] returns [<cwd>/app/GeneratedUI.tsx] for any options, in
    particular for the idea [issue tracker]; it sends no request, the file
    holds the template, and [validateGeneratedUI] passes on that path. *)
Theorem generateUI_fallback_validates options w :
  configured_key w = None → can_write (files w) (cwd w) →
  ∃ p w',
    generateUI options w = (Returned p, w')
    ∧ p = cwd w ++ ["app"; "GeneratedUI.tsx"]
    ∧ last p = Some "GeneratedUI.tsx"
    ∧ requests w' = requests w
    ∧ files w' !! p = Some (File UIGenerator.generateEnhancedFallbackUI)
    ∧ ∀ self, UIGenerator.validateGeneratedUI self p w' = (Returned true, w').
Proof.
  intros Hkey Hcan.
  rewrite generateUI_instance, generateUI_unfold, Hkey.
  rewrite callGeminiAPI_without_key by (by left).
  destruct (saveGeneratedUI_ok (UIGenerator.Make (cwd w) None)
              UIGenerator.generateEnhancedFallbackUI w Hcan)
    as (w' & Hsave & _ & Hfile & _).
  pose proof (saveGeneratedUI_requests (UIGenerator.Make (cwd w) None)
                UIGenerator.generateEnhancedFallbackUI w) as Hreq.
  rewrite Hsave in *. simpl in Hsave, Hfile, Hreq |- *.
  eexists _, w'. split; [done |]. split.
  { unfold join. by rewrite <- app_assoc. }
  split; [apply last_snoc |]. split; [done |]. split; [done |].
  intros self. rewrite validateGeneratedUI_unfold, node_at_join, Hfile.
  by rewrite fallback_has_all_markers.
Qed.

Lemma generateUI_fallback_validates_witness :
  ∃ p w',
    generateUI (Options "issue tracker" None None None) bare_world
    = (Returned p, w')
    ∧ last p = Some "GeneratedUI.tsx"
    ∧ UIGenerator.validateGeneratedUI (UIGenerator.Make ["proj"] None) p w'
      = (Returned true, w').
Proof.
  destruct (generateUI_fallback_validates
              (Options "issue tracker" None None None) bare_world)
    as (p & w' & Hrun & _ & Hlast & _ & _ & Hvalid).
  - reflexivity.
  - split.
    + intros q content _ _. simpl. by rewrite lookup_empty.
    + simpl. by rewrite lookup_empty.
  - exists p, w'. split; [exact Hrun |]. split; [exact Hlast | apply Hvalid].
Defined.

(** C9 does not hold as stated: [options.apiKey] is never read.  With the
    key [ENVKEY] in the environment and [OPTKEY] in the options, the one
    request sent carries [ENVKEY]. *)
Lemma options_apiKey_does_not_override :
  opt_apiKey override_options = Some "OPTKEY"
  ∧ map url (requests (snd (generateUI override_options (failing_world "ENVKEY" 500))))
    = [UIGenerator.endpoint +:+ "ENVKEY"]
  ∧ map url (requests (snd (generateUI override_options (failing_world "ENVKEY" 500))))
    ≠ [UIGenerator.endpoint +:+ "OPTKEY"].
Proof. split; [done |]. split; by vm_compute. Qed.

(** C9, as the code has it.  A generation call is authenticated with the key
    the instance took from the environment when it was made, whatever
    [options.apiKey] says: the requests sent are one request carrying that
    key, or none when there is no key, and option values that differ only in
    [apiKey] give the same run. *)
Theorem generateUI_uses_configured_key self options w :
  let prompt := UIGenerator.buildUIPrompt (appIdea options) options in
  requests (snd (UIGenerator.generateUI self options w))
  = requests w
    ++ match UIGenerator.apiKey self with
       | Some key =>
           if is_empty key then [] else [UIGenerator.gemini_request key prompt]
       | None => []
       end
  ∧ requests (snd (generateUI options w))
    = requests w
      ++ match configured_key w with
         | Some key => [UIGenerator.gemini_request key prompt]
         | None => []
         end
  ∧ ∀ key',
      UIGenerator.generateUI self
        (Options (appIdea options) (opt_theme options) (features options) key') w
      = UIGenerator.generateUI self options w.
Proof.
  intros prompt.
  assert (∀ g : UIGenerator.t,
            requests (snd (UIGenerator.generateUI g options w))
            = requests w
              ++ match UIGenerator.apiKey g with
                 | Some key =>
                     if is_empty key then []
                     else [UIGenerator.gemini_request key prompt]
                 | None => []
                 end) as Hmethod.
  { intros [root key]. rewrite generateUI_unfold. fold prompt. simpl.
    destruct key as [key|].
    - destruct (is_empty key) eqn:Hk.
      + rewrite callGeminiAPI_without_key by (right; by destruct key).
        by rewrite saveGeneratedUI_requests, app_nil_r.
      + rewrite callGeminiAPI_with_key by done.
        by rewrite saveGeneratedUI_requests.
    - rewrite callGeminiAPI_without_key by (by left).
      by rewrite saveGeneratedUI_requests, app_nil_r. }
  split; [apply Hmethod |]. split; [|by destruct options].
  rewrite generateUI_instance, Hmethod. simpl.
  destruct (configured_key w) as [key|] eqn:Hkey; [|done].
  by rewrite (configured_key_not_empty w key Hkey).
Qed.

(** C10. The prompt does not depend on [features]: two option values that
    differ only in that field give the same prompt, and the same run of
    [generateUI] (result, files and requests). *)
Theorem features_not_used idea theme key features1 features2 :
  (∀ appIdea,
     UIGenerator.buildUIPrompt appIdea (Options idea theme features1 key)
     = UIGenerator.buildUIPrompt appIdea (Options idea theme features2 key))
  ∧ (∀ self w,
       UIGenerator.generateUI self (Options idea theme features1 key) w
       = UIGenerator.generateUI self (Options idea theme features2 key) w)
  ∧ (∀ w,
       generateUI (Options idea theme features1 key) w
       = generateUI (Options idea theme features2 key) w).
Proof.
  assert (∀ appIdea,
            UIGenerator.buildUIPrompt appIdea (Options idea theme features1 key)
            = UIGenerator.buildUIPrompt appIdea (Options idea theme features2 key))
    as Hprompt by (intros appIdea; unfold UIGenerator.buildUIPrompt; reflexivity).
  split; [exact Hprompt |].
  assert (∀ self w,
            UIGenerator.generateUI self (Options idea theme features1 key) w
            = UIGenerator.generateUI self (Options idea theme features2 key) w)
    as Hrun.
  { intros self w. rewrite !generateUI_unfold. simpl. by rewrite Hprompt. }
  split; [exact Hrun |].
  intros w. rewrite !generateUI_instance. apply Hrun.
Qed.

(** * Further properties of the extractor *)

(** ** What the first replacement leaves *)

Lemma fenceRegex_at_fence s :
  starts_with Regex.fence s = true → is_Some (Regex.fenceRegex_at s).
Proof.
  unfold starts_with, Regex.fenceRegex_at.
  destruct (strip_prefix Regex.fence s) as [r|]; [|done]. intros _.
  cbn [mbind option_bind].
  apply (first_alternative_is_Some _ _ EmptyString).
  - apply recognised_cases. auto.
  - simpl. eauto.
Qed.

Lemma fenceRegex_at_None_inv s :
  Regex.fenceRegex_at s = None → starts_with Regex.fence s = false.
Proof.
  intros H. destruct (starts_with Regex.fence s) eqn:E; [|done].
  apply fenceRegex_at_fence in E as [n Hn]. congruence.
Qed.

Lemma remove_fences_keeps_head a s :
  starts_with Regex.fence (String a s) = false →
  Regex.remove_fences_from 0 (String a s)
  = String a (Regex.remove_fences_from 0 s).
Proof.
  intros H. by rewrite remove_fences_from_cons, fenceRegex_at_None.
Qed.

(** A text that does not start with two backquotes still does not after the
    replacement. *)
Lemma remove_fences_two_ticks s :
  starts_with "``" s = false →
  starts_with "``" (Regex.remove_fences_from 0 s) = false.
Proof.
  destruct s as [|b [|c s]]; [done | |].
  - intros _. rewrite remove_fences_keeps_head by (unfold starts_with; simpl; bytes).
    unfold starts_with. simpl. bytes.
  - rewrite !starts_with_cons. intros H.
    destruct (Ascii.eqb_spec "`" b) as [<-|Hb].
    + destruct (Ascii.eqb_spec "`" c) as [<-|Hc]; [done |].
      rewrite remove_fences_keeps_head
        by (unfold starts_with, Regex.fence; simpl; bytes).
      rewrite remove_fences_keeps_head
        by (unfold starts_with, Regex.fence; simpl; bytes).
      rewrite !starts_with_cons. by rewrite (proj2 (Ascii.eqb_neq _ _) Hc), andb_false_r.
    + rewrite remove_fences_keeps_head
        by (unfold starts_with, Regex.fence; simpl; bytes).
      rewrite starts_with_cons. by rewrite (proj2 (Ascii.eqb_neq _ _) Hb).
Qed.

Lemma remove_fences_from_fence_free k s :
  fence_free (Regex.remove_fences_from k s).
Proof.
  revert k; induction s as [|a s IH]; intros k; [by destruct k |].
  rewrite remove_fences_from_cons. destruct k as [|k]; [|apply IH].
  destruct (Regex.fenceRegex_at (String a s)) as [n|] eqn:E; [apply IH |].
  apply fenceRegex_at_None_inv in E.
  unfold fence_free.
  change (includes (String a (Regex.remove_fences_from 0 s)) Regex.fence)
    with (if starts_with Regex.fence (String a (Regex.remove_fences_from 0 s))
          then true else includes (Regex.remove_fences_from 0 s) Regex.fence).
  rewrite (IH 0).
  revert E. unfold Regex.fence. rewrite !starts_with_cons.
  destruct (Ascii.eqb "`" a); [|done]. simpl. intros E.
  by rewrite (remove_fences_two_ticks s E).
Qed.

Lemma remove_final_closing_fence_free t :
  fence_free t → Regex.remove_final_closing t = t.
Proof.
  induction t as [|a t IH]; [done |]. intros Ht.
  change (Regex.remove_final_closing (String a t))
    with (if String.eqb (String a t) Regex.closing then EmptyString
          else String a (Regex.remove_final_closing t)).
  destruct (String.eqb_spec (String a t) Regex.closing) as [E|_].
  - rewrite E in Ht. by vm_compute in Ht.
  - by rewrite IH by (by eapply includes_tail).
Qed.

(** X1. After [replace(/```(?:typescript|tsx|ts)?\n?/g, '')] no three
    backquotes in a row are left in any text, so the second replacement,
    [replace(/\n```$/g, '')], never changes anything. *)
Theorem second_replace_never_applies s :
  fence_free (Regex.remove_fences s)
  ∧ Regex.remove_final_closing (Regex.remove_fences s) = Regex.remove_fences s.
Proof.
  pose proof (remove_fences_from_fence_free 0 s) as H.
  split; [exact H |]. by apply remove_final_closing_fence_free.
Qed.

(** ** Parts of a text *)

Lemma starts_with_append_r p s t :
  starts_with p s = true → starts_with p (s +:+ t) = true.
Proof.
  intros [r ->]%starts_with_true. rewrite append_assoc. apply starts_with_append.
Qed.

Lemma includes_cons a s p :
  includes (String a s) p = if starts_with p (String a s) then true else includes s p.
Proof. done. Qed.

(** What a text does not include, no prefix and no suffix of it includes. *)
Lemma includes_prefix s t p : includes (s +:+ t) p = false → includes s p = false.
Proof.
  induction s as [|a s IH].
  - destruct p as [|b p]; [by destruct t |]. done.
  - change (String a s +:+ t) with (String a (s +:+ t)). rewrite !includes_cons.
    destruct (starts_with p (String a s)) eqn:E.
    + apply (starts_with_append_r _ _ t) in E.
      change (String a s +:+ t) with (String a (s +:+ t)) in E. by rewrite E.
    + destruct (starts_with p (String a (s +:+ t))); [done | apply IH].
Qed.

Lemma includes_suffix s t p : includes (s +:+ t) p = false → includes t p = false.
Proof.
  induction s as [|a s IH]; [done |].
  change (String a s +:+ t) with (String a (s +:+ t)).
  intros H%includes_tail. by apply IH.
Qed.

(** ** More on trimming *)

Lemma trimStart_from_suffix k s : ∃ u, s = u +:+ trimStart_from k s.
Proof.
  revert k; induction s as [|a s IH]; intros k; [by exists EmptyString; destruct k |].
  rewrite trimStart_from_cons. destruct k as [|k].
  - destruct (ws_width (String a s)) as [|w]; [by exists EmptyString |].
    destruct (IH w) as [u Hu]. exists (String a u). simpl. by rewrite <- Hu.
  - destruct (IH k) as [u Hu]. exists (String a u). simpl. by rewrite <- Hu.
Qed.

(** What [trimStart] returns has no white space in front. *)
Lemma trimStart_from_done k s : trimStart (trimStart_from k s) = trimStart_from k s.
Proof.
  revert k; induction s as [|a s IH]; intros k; [by destruct k |].
  rewrite trimStart_from_cons. destruct k as [|k]; [|apply IH].
  destruct (ws_width (String a s)) as [|w] eqn:E; [|apply IH].
  unfold trimStart. by rewrite trimStart_from_cons, E.
Qed.

Lemma trimEnd_cons a r :
  trimEnd (String a r) =
  if blank (String a r) then EmptyString else String a (trimEnd r).
Proof. done. Qed.

(** [trimEnd] cuts off a blank rest. *)
Lemma trimEnd_split s : ∃ rest, s = trimEnd s +:+ rest ∧ blank rest = true.
Proof.
  induction s as [|a s (rest & Hs & Hrest)]; [by exists EmptyString |].
  rewrite trimEnd_cons. destruct (blank (String a s)) eqn:E.
  - by exists (String a s).
  - exists rest. split; [|done]. simpl. by rewrite <- Hs.
Qed.

Lemma ws_width_le s : ws_width s ≤ String.length s.
Proof.
  unfold ws_width. destruct s as [|a [|b [|c s]]]; simpl;
    repeat (match goal with |- context [if ?b then _ else _] => destruct b end);
    lia.
Qed.

(** A white-space character at the start of [s] is one at the start of
    every extension of [s]. *)
Lemma ws_width_append s t w : ws_width s = S w → ws_width (s +:+ t) = S w.
Proof.
  unfold ws_width. destruct s as [|a [|b [|c s]]]; simpl; try done.
  - destruct (ws1 a); [done |]. done.
  - destruct (ws1 a); [done |]. destruct (ws2 a b); done.
Qed.

(** Blank text followed by more text trims to what the rest trims to. *)
Lemma trimStart_from_blank_append k s t :
  k ≤ String.length s → trimStart_from k s = EmptyString →
  trimStart_from k (s +:+ t) = trimStart t.
Proof.
  revert k; induction s as [|a s IH]; intros k Hk.
  - simpl in Hk. by replace k with 0 by lia.
  - change (String a s +:+ t) with (String a (s +:+ t)).
    rewrite !trimStart_from_cons. destruct k as [|k].
    + destruct (ws_width (String a s)) as [|w] eqn:E; [done |].
      pose proof (ws_width_le (String a s)) as Hle. rewrite E in Hle.
      pose proof (ws_width_append (String a s) t w E) as E'.
      change (String a s +:+ t) with (String a (s +:+ t)) in E'. rewrite E'.
      apply IH. simpl in Hle. lia.
    + apply IH. simpl in Hk. lia.
Qed.

Lemma blank_append s t : blank s = true → blank t = true → blank (s +:+ t) = true.
Proof.
  unfold blank, trimStart. intros Hs Ht.
  rewrite trimStart_from_blank_append; [done | lia |].
  by destruct (trimStart_from 0 s).
Qed.

(** [tight s]: no rest of [s] other than the empty one is blank. *)
Lemma trimEnd_tight s :
  trimEnd s = s ↔ ∀ u v, s = u +:+ v → v ≠ EmptyString → blank v = false.
Proof.
  induction s as [|a s IH].
  - split; [|done]. intros _ u v Huv Hv. by destruct u, v.
  - rewrite trimEnd_cons. split.
    + destruct (blank (String a s)) eqn:E; [done |]. intros [= Hs].
      intros [|b u] v Huv Hv.
      * simpl in Huv. by subst v.
      * injection Huv as -> ->. by apply (proj1 IH Hs u v).
    + intros H. rewrite (H EmptyString (String a s)) by done.
      f_equal. apply IH. intros u v -> Hv. by apply (H (String a u) v).
Qed.

Lemma trimEnd_done s : trimEnd (trimEnd s) = trimEnd s.
Proof.
  induction s as [|a s IH]; [done |].
  rewrite trimEnd_cons. destruct (blank (String a s)) eqn:E; [done |].
  rewrite trimEnd_cons, IH.
  destruct (blank (String a (trimEnd s))) eqn:E'; [|done].
  destruct (trimEnd_split s) as (rest & Hs & Hrest).
  pose proof (blank_append (String a (trimEnd s)) rest E' Hrest) as Hb.
  simpl in Hb. rewrite <- Hs in Hb. congruence.
Qed.

Lemma trim_done s : trim (trim s) = trim s.
Proof.
  unfold trim.
  assert (trimEnd (trimStart (trimEnd s)) = trimStart (trimEnd s)) as ->.
  { apply trimEnd_tight. intros u v Huv Hv.
    destruct (trimStart_from_suffix 0 (trimEnd s)) as [u0 Hu0].
    fold (trimStart (trimEnd s)) in Hu0. rewrite Huv, <- append_assoc in Hu0.
    by apply (proj1 (trimEnd_tight (trimEnd s)) (trimEnd_done s) (u0 +:+ u) v). }
  apply trimStart_from_done.
Qed.

(** X2. What [extractCodeFromResponse] returns is trimmed: trimming it again
    changes nothing, and it does not start with a white-space character. *)
Theorem extractCodeFromResponse_trimmed response :
  trim (extractCodeFromResponse response) = extractCodeFromResponse response
  ∧ ws_width (extractCodeFromResponse response) = 0.
Proof.
  assert (∀ s, ws_width (trim s) = 0) as Hws.
  { intros s. pose proof (trimStart_from_done 0 (trimEnd s)) as H.
    fold (trimStart (trimEnd s)) in H. fold (trim s) in H.
    unfold trimStart in H. destruct (trim s) as [|a r] eqn:E; [done |].
    rewrite trimStart_from_cons in H.
    destruct (ws_width (String a r)) as [|w] eqn:Ew; [done |].
    destruct (trimStart_from_suffix w r) as [u Hu].
    apply (f_equal String.length) in Hu. rewrite H in Hu.
    assert (∀ x y, String.length (x +:+ y) = String.length x + String.length y) as Hlen.
    { intros x y. induction x as [|c x IHx]; simpl; [done | by rewrite IHx]. }
    rewrite Hlen in Hu. simpl in Hu. lia. }
  unfold extractCodeFromResponse.
  destruct (Regex.match_codeBlocks response) as [[|m0 ms]|];
    split; (apply trim_done || apply Hws).
Qed.

Lemma trim_keeps_free s p : includes s p = false → includes (trim s) p = false.
Proof.
  intros H. unfold trim.
  destruct (trimEnd_split s) as (rest & Hs & _).
  rewrite Hs in H. apply includes_prefix in H.
  destruct (trimStart_from_suffix 0 (trimEnd s)) as [u Hu].
  fold (trimStart (trimEnd s)) in Hu. rewrite Hu in H.
  by apply includes_suffix in H.
Qed.

(** X3. Whenever the text holds a block the extractor recognises, the result
    holds no three backquotes in a row: every fence of the first match, and
    every triple backquote inside its body, is gone. *)
Theorem extracted_block_has_no_fence response :
  has_block response → fence_free (extractCodeFromResponse response).
Proof.
  intros H%has_block_match. unfold extractCodeFromResponse.
  destruct (Regex.match_codeBlocks response) as [[|m0 ms]|] eqn:E; [| |done].
  - unfold Regex.match_codeBlocks in E.
    by destruct (Regex.codeBlock_matches_from 0 response).
  - rewrite remove_final_closing_fence_free by apply remove_fences_from_fence_free.
    apply trim_keeps_free, remove_fences_from_fence_free.
Qed.

Lemma extracted_block_has_no_fence_witness :
  fence_free
    (extractCodeFromResponse
       ("Sure:" +:+ fenced "tsx" "const s = '```'" +:+ " and more ```")).
Proof.
  apply extracted_block_has_no_fence.
  exists "Sure:", "tsx", "const s = '```'", " and more ```".
  split; [|reflexivity]. apply recognised_cases. auto.
Defined.

(** X4. An answer without a closing fence at the start of a line, such as
    one cut off before the block ends, is returned whole and trimmed, with
    its opening fence line still in it. *)
Theorem unclosed_fence_returned_whole response :
  includes response Regex.closing = false →
  extractCodeFromResponse response = trim response.
Proof.
  intros H. apply extract_no_block.
  intros (pre & tag & body & post & _ & ->).
  unfold fenced in H.
  rewrite !append_assoc in H. rewrite <- !append_assoc in H.
  rewrite !append_assoc in H.
  replace (pre +:+ Regex.fence +:+ tag +:+ nl +:+ body +:+ Regex.closing +:+ post)
    with ((pre +:+ Regex.fence +:+ tag +:+ nl +:+ body) +:+ Regex.closing +:+ post)
    in H by (by rewrite !append_assoc).
  by rewrite includes_append in H.
Qed.

Lemma unclosed_fence_returned_whole_witness :
  extractCodeFromResponse ("```tsx" +:+ nl +:+ "export default function GeneratedUI() {")
  = trim ("```tsx" +:+ nl +:+ "export default function GeneratedUI() {").
Proof.
  apply unclosed_fence_returned_whole. reflexivity.
Defined.

(** * Further properties of the generation client *)

(** The call sends at most one request and touches nothing else. *)
Lemma callGeminiAPI_frame self prompt w :
  ∃ code,
    UIGenerator.callGeminiAPI self prompt w = (Returned code, w)
    ∨ ∃ key, UIGenerator.apiKey self = Some key ∧ is_empty key = false
             ∧ UIGenerator.callGeminiAPI self prompt w
               = (Returned code, sent w (UIGenerator.gemini_request key prompt)).
Proof.
  destruct self as [root [key|]]; [|by eexists; left].
  destruct (is_empty key) eqn:Hk.
  - eexists. left. apply callGeminiAPI_without_key. right. by destruct key.
  - eexists. right. exists key. split; [done |]. split; [done |].
    by apply callGeminiAPI_with_key.
Qed.

(** X5. [callGeminiAPI] sends at most one request (there is no retry), and
    that request is a POST to the fixed endpoint with the instance's key;
    whatever the outcome it leaves the files, the environment and the working
    directory as they were. *)
Theorem callGeminiAPI_one_request_no_files self prompt w :
  let w' := snd (UIGenerator.callGeminiAPI self prompt w) in
  files w' = files w ∧ env w' = env w ∧ cwd w' = cwd w
  ∧ (requests w' = requests w
     ∨ ∃ key req,
         UIGenerator.apiKey self = Some key
         ∧ requests w' = requests w ++ [req]
         ∧ url req = UIGenerator.endpoint +:+ key
         ∧ method req = "POST").
Proof.
  destruct (callGeminiAPI_frame self prompt w) as [code [-> | (key & Hkey & _ & ->)]].
  - simpl. auto.
  - simpl. repeat split. right.
    by exists key, (UIGenerator.gemini_request key prompt).
Qed.

(** X6. With a key, every exchange that does not deliver a string as the
    text gives the template: a rejected [fetch], a body that does not parse,
    a body that is [null] or lacks the field, and a text field holding a
    number, a boolean, an array or an object (on which the call of [match]
    throws). *)
Theorem callGeminiAPI_other_failures root key prompt w :
  is_empty key = false →
  (∃ e, server w (UIGenerator.gemini_request key prompt) = Thrown e)
  ∨ (∃ r, server w (UIGenerator.gemini_request key prompt) = Returned r
          ∧ ((∃ e, json r = Thrown e)
             ∨ (∃ data, json r = Returned data
                        ∧ ∀ s, text_field data ≠ VStr s))) →
  fst (UIGenerator.callGeminiAPI (UIGenerator.Make root (Some key)) prompt w)
  = Returned UIGenerator.generateEnhancedFallbackUI.
Proof.
  intros Hk Hfail. rewrite callGeminiAPI_with_key by done. simpl.
  unfold model_text.
  destruct Hfail as [[e ->] | (r & -> & [[e ->] | (data & -> & Hns)])];
    [done | by destruct (ok r) |].
  destruct (ok r); [|done].
  destruct (text_field data) as [| | | |s| |]; try done.
  by destruct (Hns s).
Qed.

Lemma callGeminiAPI_other_failures_witness :
  fst (UIGenerator.callGeminiAPI (UIGenerator.Make ["proj"] (Some "k")) "a prompt"
         (answering_world "k" (answer (VNum (7 # 1)))))
  = Returned UIGenerator.generateEnhancedFallbackUI.
Proof.
  apply callGeminiAPI_other_failures; [reflexivity |].
  right. exists (Response 200 (Returned (answer (VNum (7 # 1))))).
  split; [reflexivity |]. right. exists (answer (VNum (7 # 1))).
  split; [reflexivity |]. intros s. vm_compute. discriminate.
Defined.

(** X7. With a key, an answer with a success status whose text field is a
    non-empty string is passed through the extractor; on a writable output
    place [generateUI] writes exactly the extracted text and returns the path
    of the file. *)
Theorem generateUI_writes_extracted_text root key options w r data s :
  let self := UIGenerator.Make root (Some key) in
  let req := UIGenerator.gemini_request key
               (UIGenerator.buildUIPrompt (appIdea options) options) in
  let target := join (join root "app") "GeneratedUI.tsx" in
  is_empty key = false →
  server w req = Returned r → ok r = true → json r = Returned data →
  text_field data = VStr s → is_empty s = false →
  can_write (files w) root →
  ∃ w', UIGenerator.generateUI self options w = (Returned target, w')
    ∧ files w' !! target = Some (File (extractCodeFromResponse s))
    ∧ requests w' = requests w ++ [req].
Proof.
  intros self req target Hk Hr Hok Hjson Htext Hs Hcan.
  rewrite generateUI_unfold. unfold self.
  rewrite callGeminiAPI_with_key by done. fold req.
  unfold model_text. rewrite Hr, Hok, Hjson, Htext, Hs.
  destruct (saveGeneratedUI_ok (UIGenerator.Make root (Some key))
              (extractCodeFromResponse s) (sent w req) Hcan)
    as (w' & Hsave & _ & Hfile & _).
  pose proof (saveGeneratedUI_requests (UIGenerator.Make root (Some key))
                (extractCodeFromResponse s) (sent w req)) as Hreq.
  rewrite Hsave in Hreq. exists w'. by rewrite Hsave.
Qed.

Lemma generateUI_writes_extracted_text_witness :
  ∃ w',
    UIGenerator.generateUI (UIGenerator.Make ["proj"] (Some "k"))
      (Options "issue tracker" None None None)
      (answering_world "k" (answer (VStr (fenced "tsx" "const x = 1"))))
    = (Returned ["proj"; "app"; "GeneratedUI.tsx"], w')
    ∧ files w' !! ["proj"; "app"; "GeneratedUI.tsx"]
      = Some (File (extractCodeFromResponse (fenced "tsx" "const x = 1"))).
Proof.
  destruct (generateUI_writes_extracted_text ["proj"] "k"
              (Options "issue tracker" None None None)
              (answering_world "k" (answer (VStr (fenced "tsx" "const x = 1"))))
              (Response 200 (Returned (answer (VStr (fenced "tsx" "const x = 1")))))
              (answer (VStr (fenced "tsx" "const x = 1")))
              (fenced "tsx" "const x = 1"))
    as (w' & Hrun & Hfile & _); try reflexivity.
  - split.
    + intros q content _ _. simpl. by rewrite lookup_empty.
    + simpl. by rewrite lookup_empty.
  - exists w'. split; [exact Hrun | exact Hfile].
Defined.

(** X8. Whenever the generation falls back to the template, for whatever
    reason, and the output place is writable, [generateUI] still returns the
    path, the file holds the template, and [validateGeneratedUI] passes on
    it. *)
Theorem generateUI_degraded_run_validates self options w :
  fst (UIGenerator.callGeminiAPI self
         (UIGenerator.buildUIPrompt (appIdea options) options) w)
  = Returned UIGenerator.generateEnhancedFallbackUI →
  can_write (files w) (UIGenerator.projectRoot self) →
  ∃ p w',
    UIGenerator.generateUI self options w = (Returned p, w')
    ∧ files w' !! p = Some (File UIGenerator.generateEnhancedFallbackUI)
    ∧ UIGenerator.validateGeneratedUI self p w' = (Returned true, w').
Proof.
  intros Hfall Hcan. rewrite generateUI_unfold.
  destruct (callGeminiAPI_frame self
              (UIGenerator.buildUIPrompt (appIdea options) options) w)
    as [code [Hcall | (key & _ & _ & Hcall)]];
    rewrite Hcall in Hfall |- *; simpl in Hfall; injection Hfall as ->.
  - destruct (saveGeneratedUI_ok self UIGenerator.generateEnhancedFallbackUI w Hcan)
      as (w' & Hsave & _ & Hfile & _).
    eexists _, w'. split; [done |]. split; [done |].
    by rewrite validateGeneratedUI_unfold, node_at_join, Hfile,
      fallback_has_all_markers.
  - destruct (saveGeneratedUI_ok self UIGenerator.generateEnhancedFallbackUI
                (sent w (UIGenerator.gemini_request key
                           (UIGenerator.buildUIPrompt (appIdea options) options)))
                Hcan)
      as (w' & Hsave & _ & Hfile & _).
    eexists _, w'. split; [done |]. split; [done |].
    by rewrite validateGeneratedUI_unfold, node_at_join, Hfile,
      fallback_has_all_markers.
Qed.

Lemma generateUI_degraded_run_validates_witness :
  ∃ p w',
    UIGenerator.generateUI (UIGenerator.Make ["proj"] (Some "k"))
      (Options "issue tracker" None None None) (failing_world "k" 503)
    = (Returned p, w')
    ∧ UIGenerator.validateGeneratedUI (UIGenerator.Make ["proj"] (Some "k")) p w'
      = (Returned true, w').
Proof.
  destruct (generateUI_degraded_run_validates
              (UIGenerator.Make ["proj"] (Some "k"))
              (Options "issue tracker" None None None) (failing_world "k" 503))
    as (p & w' & Hrun & _ & Hvalid).
  - vm_compute. reflexivity.
  - split.
    + intros q content _ _. simpl. by rewrite lookup_empty.
    + simpl. by rewrite lookup_empty.
  - exists p, w'. split; [exact Hrun | exact Hvalid].
Defined.

(** * Further properties of the writer and the validator *)

(** Whatever [make_dirs] returns differs from the start only by new
    directories on the way. *)
Lemma make_dirs_frame names : ∀ base fs fs',
  Fs.make_dirs base names fs = Returned fs' →
  ∀ p, fs' !! p = fs !! p
       ∨ (fs !! p = None ∧ fs' !! p = Some Dir
          ∧ ∃ q, q `prefix_of` names ∧ q ≠ [] ∧ p = base ++ q).
Proof.
  induction names as [|n rest IH]; intros base fs fs'; simpl.
  - intros [= <-] p. by left.
  - assert (∀ q, join base n ++ q = base ++ n :: q) as Hcons.
    { intros q. unfold join. by rewrite <- app_assoc. }
    assert (∀ p, (∃ q, q `prefix_of` rest ∧ q ≠ [] ∧ p = join base n ++ q) →
                 ∃ q, q `prefix_of` n :: rest ∧ q ≠ [] ∧ p = base ++ q) as Hlift.
    { intros p (q & Hq & _ & ->). exists (n :: q).
      split; [by apply prefix_cons |]. split; [done | apply Hcons]. }
    destruct (fs !! join base n) as [[c|]|] eqn:E; [done | |].
    + intros H p. destruct (IH _ _ _ H p) as [? | (? & ? & ?)]; [by left |].
      right. eauto.
    + intros H p. destruct (IH _ _ _ H p) as [Hp | (Hp & ? & ?)].
      * destruct (decide (p = join base n)) as [-> | Hne].
        -- right. rewrite Hp, lookup_insert_eq. split; [done |]. split; [done |].
           exists [n]. split; [by apply prefix_cons, prefix_nil |].
           split; [done |]. by rewrite <- Hcons, app_nil_r.
        -- left. by rewrite Hp, lookup_insert_ne.
      * right. destruct (decide (p = join base n)) as [-> | Hne].
        -- by rewrite lookup_insert_eq in Hp.
        -- rewrite lookup_insert_ne in Hp by done. eauto.
Qed.

Lemma writeFileSync_Thrown p data w e w' :
  Fs.writeFileSync p data w = (Thrown e, w') → w' = w.
Proof.
  unfold Fs.writeFileSync.
  destruct (Fs.node_at (files w) p) as [[c|]|];
    destruct (Fs.node_at (files w) (Fs.parent p)) as [[c'|]|];
    by intros [= <-].
Qed.

Section writer.

Variables (self : UIGenerator.t) (code : string) (w : world).

Local Abbreviation dir := (join (UIGenerator.projectRoot self) "app").
Local Abbreviation target := (join dir "GeneratedUI.tsx").

(** The world in which the file is written: the start, or the start with
    the directories made. *)
Lemma saveGeneratedUI_stages :
  (∃ e, UIGenerator.saveGeneratedUI self code w = (Thrown e, w))
  ∨ ∃ fs1,
      (∀ p, fs1 !! p = files w !! p
            ∨ (files w !! p = None ∧ fs1 !! p = Some Dir
               ∧ ∃ q, q `prefix_of` dir ∧ q ≠ [] ∧ p = q))
      ∧ ((∃ e, UIGenerator.saveGeneratedUI self code w
               = (Thrown e, Fs.with_files w fs1))
         ∨ (fs1 !! target ≠ Some Dir ∧ fs1 !! dir = Some Dir
            ∧ UIGenerator.saveGeneratedUI self code w
              = (Returned target,
                 Fs.with_files w (<[target := File code]> fs1)))).
Proof.
  rewrite saveGeneratedUI_unfold.
  assert (∀ w0, ∃ o, Fs.writeFileSync target code w0 = o ∧
            ((∃ e, o = (Thrown e, w0))
             ∨ (files w0 !! target ≠ Some Dir ∧ files w0 !! dir = Some Dir
                ∧ o = (Returned tt,
                       Fs.with_files w0 (<[target := File code]> (files w0))))))
    as Hwrite.
  { intros w0. eexists. split; [done |].
    destruct (Fs.writeFileSync target code w0) as [[[]|e] w1] eqn:E.
    - right. apply writeFileSync_Returned in E as (Ht & Hp & ->).
      rewrite node_at_join in Ht. rewrite parent_join, node_at_join in Hp. done.
    - left. apply writeFileSync_Thrown in E as ->. eauto. }
  destruct (files w !! dir) as [nd|] eqn:Hdir.
  - right. exists (files w). split; [by left |].
    destruct (Hwrite w) as (o & -> & [[e ->] | (? & ? & ->)]).
    + left. exists e. by destruct w.
    + right. done.
  - destruct (Fs.make_dirs [] dir (files w)) as [fs1|e] eqn:Hmk; [|left; eauto].
    right. exists fs1. split.
    { intros p. destruct (make_dirs_frame _ _ _ _ Hmk p) as [? | (? & ? & q & ? & ? & ->)];
        [by left | right; eauto 10]. }
    destruct (Hwrite (Fs.with_files w fs1)) as (o & -> & [[e ->] | (? & ? & ->)]).
    + left. eauto.
    + right. done.
Qed.

End writer.

(** X9. After a successful [saveGeneratedUI] of any text,
    [validateGeneratedUI] on the returned path reads that text back: it
    passes exactly when the text includes all five required markers. *)
Theorem save_then_validate self code w p w1 :
  UIGenerator.saveGeneratedUI self code w = (Returned p, w1) →
  ∃ verdict,
    UIGenerator.validateGeneratedUI self p w1 = (Returned verdict, w1)
    ∧ (verdict = true ↔
       ∀ m, m ∈ UIGenerator.requiredElements → includes code m = true).
Proof.
  intros (-> & _ & Hfile)%saveGeneratedUI_Returned.
  rewrite validateGeneratedUI_unfold, node_at_join, Hfile.
  eexists. split; [done |].
  rewrite length_zero_nil. apply missingElements_among.
Qed.

Lemma save_then_validate_witness :
  ∃ verdict w1,
    UIGenerator.validateGeneratedUI (UIGenerator.Make ["proj"] None)
      ["proj"; "app"; "GeneratedUI.tsx"] w1
    = (Returned verdict, w1)
    ∧ (verdict = true ↔
       ∀ m, m ∈ UIGenerator.requiredElements → includes "onClick" m = true).
Proof.
  destruct (save_then_validate (UIGenerator.Make ["proj"] None) "onClick"
              bare_world ["proj"; "app"; "GeneratedUI.tsx"]
              (snd (UIGenerator.saveGeneratedUI (UIGenerator.Make ["proj"] None)
                      "onClick" bare_world)))
    as (verdict & Hrun & Hiff).
  - vm_compute. reflexivity.
  - by exists verdict, (snd (UIGenerator.saveGeneratedUI
                               (UIGenerator.Make ["proj"] None) "onClick" bare_world)).
Defined.

(** X10. Whether it succeeds or throws, [saveGeneratedUI] changes nothing
    but its own output: every entry of the file system other than
    [GeneratedUI.tsx] stays as it was, the only entries that appear are that
    file and the directories on the way to it, and the environment, the
    working directory and the request log are untouched. *)
Theorem saveGeneratedUI_touches_only_its_output self code w :
  let dir := join (UIGenerator.projectRoot self) "app" in
  let target := join dir "GeneratedUI.tsx" in
  let w' := snd (UIGenerator.saveGeneratedUI self code w) in
  (∀ p nd, p ≠ target → files w !! p = Some nd → files w' !! p = Some nd)
  ∧ (∀ p, files w !! p = None → files w' !! p ≠ None →
          p = target ∨ (p `prefix_of` dir ∧ files w' !! p = Some Dir))
  ∧ env w' = env w ∧ cwd w' = cwd w ∧ requests w' = requests w.
Proof.
  intros dir target w'.
  destruct (saveGeneratedUI_stages self code w)
    as [[e He] | (fs1 & Hfs1 & [[e He] | (_ & _ & He)])];
    subst w'; rewrite He; simpl.
  - split; [done |]. split; [|done]. intros p Hnone Hsome. done.
  - split; [|split; [|done]].
    + intros p nd _ Hp. destruct (Hfs1 p) as [-> | (Hn & _)]; [done | congruence].
    + intros p Hnone Hsome. right.
      destruct (Hfs1 p) as [Heq | (_ & Hd & q & Hq & _ & ->)]; [congruence | done].
  - split; [|split; [|done]].
    + intros p nd Hne Hp. rewrite lookup_insert_ne by done.
      destruct (Hfs1 p) as [-> | (Hn & _)]; [done | congruence].
    + intros p Hnone Hsome.
      destruct (decide (p = target)) as [-> | Hne]; [by left |]. right.
      rewrite lookup_insert_ne in Hsome |- * by done.
      destruct (Hfs1 p) as [Heq | (_ & Hd & q & Hq & _ & ->)]; [congruence | done].
Qed.

Lemma saveGeneratedUI_touches_only_its_output_witness :
  files (snd (UIGenerator.saveGeneratedUI (UIGenerator.Make ["proj"] None)
                "new" project_world))
    !! ["proj"; "app"; "page.tsx"]
  = Some (File "page").
Proof.
  apply (proj1 (saveGeneratedUI_touches_only_its_output
                  (UIGenerator.Make ["proj"] None) "new" project_world)).
  - discriminate.
  - reflexivity.
Defined.

(** A file on the way, before the last name, stops [make_dirs]. *)
(** When [mkdirSync] with [recursive] fails, the error names the directory
    that was asked for, not the entry that is in the way. *)
Lemma make_dirs_error_path names : ∀ base fs e,
  Fs.make_dirs base names fs = Thrown e →
  ∃ code, e = SystemError code (base ++ names).
Proof.
  induction names as [|n rest IH]; intros base fs e H; simpl in H; [done |].
  assert (base ++ n :: rest = join base n ++ rest) as Hcons
    by (unfold join; by rewrite <- app_assoc).
  destruct (fs !! join base n) as [[c|]|] eqn:E.
  - injection H as <-. eauto.
  - rewrite Hcons. by eapply IH.
  - rewrite Hcons. by eapply IH.
Qed.

Example mkdir_below_a_file :
  Fs.make_dirs ["proj"] ["app"; "ui"] blocked_disk
  = Thrown (SystemError "ENOTDIR" ["proj"; "app"; "ui"]).
Proof. by vm_compute. Qed.

Lemma make_dirs_blocked front : ∀ last base fs q content,
  q `prefix_of` front → q ≠ [] → fs !! (base ++ q) = Some (File content) →
  ∃ at_path,
    Fs.make_dirs base (front ++ [last]) fs = Thrown (SystemError "ENOTDIR" at_path).
Proof.
  induction front as [|n front IH]; intros last base fs q content Hq Hne Hfile.
  - by apply prefix_nil_inv in Hq.
  - destruct q as [|n' q]; [done |].
    apply prefix_cons_inv_1 in Hq as Hn. subst n'. apply prefix_cons_inv_2 in Hq.
    assert (base ++ n :: q = join base n ++ q) as Hcons
      by (unfold join; by rewrite <- app_assoc).
    rewrite Hcons in Hfile. simpl.
    destruct q as [|n2 q].
    { rewrite app_nil_r in Hfile. rewrite Hfile. destruct front; eauto. }
    destruct (fs !! join base n) as [[c|]|] eqn:E.
    + destruct front; eauto.
    + by apply (IH last (join base n) fs (n2 :: q) content).
    + apply (IH last (join base n) _ (n2 :: q) content); [done..|].
      rewrite lookup_insert_ne; [done |].
      intros Heq. apply (f_equal length) in Heq.
      rewrite length_app in Heq. simpl in Heq. lia.
Qed.

(** X11. How [saveGeneratedUI] fails on a well-formed file tree.  With a
    file in the place of the output directory the write throws ENOTDIR; with
    a directory in the place of the output file it throws EISDIR; with the
    output directory absent and a file somewhere above it, making the
    directory throws ENOTDIR.  In each case nothing is written: the world is
    left as it was. *)
Theorem saveGeneratedUI_failures self code w :
  let dir := join (UIGenerator.projectRoot self) "app" in
  let target := join dir "GeneratedUI.tsx" in
  well_formed (files w) →
  (∀ content, files w !! dir = Some (File content) →
     UIGenerator.saveGeneratedUI self code w
     = (Thrown (SystemError "ENOTDIR" target), w))
  ∧ (files w !! target = Some Dir →
     UIGenerator.saveGeneratedUI self code w
     = (Thrown (SystemError "EISDIR" target), w))
  ∧ (∀ q content,
       files w !! dir = None →
       q `prefix_of` UIGenerator.projectRoot self → q ≠ [] →
       files w !! q = Some (File content) →
       ∃ at_path,
         UIGenerator.saveGeneratedUI self code w
         = (Thrown (SystemError "ENOTDIR" at_path), w)).
Proof.
  intros dir target Hwf. subst dir target. rewrite saveGeneratedUI_unfold.
  set (dir := join (UIGenerator.projectRoot self) "app").
  set (target := join dir "GeneratedUI.tsx").
  assert (∀ nd, files w !! target = Some nd → files w !! dir = Some Dir) as Hparent.
  { intros nd Ht. destruct (Hwf target nd Ht) as [_ Hp].
    unfold target in Hp. rewrite parent_join in Hp.
    unfold dir in Hp. by rewrite node_at_join in Hp. }
  assert (Fs.parent target = dir) as Hpt by apply parent_join.
  assert (∀ fs, Fs.node_at fs target = fs !! target) as Hnt
    by (intros fs; apply node_at_join).
  assert (∀ fs, Fs.node_at fs dir = fs !! dir) as Hnd
    by (intros fs; apply node_at_join).
  split; [|split].
  - intros content Hdir. rewrite Hdir. unfold Fs.writeFileSync.
    rewrite Hnt, Hpt, Hnd.
    destruct (files w !! target) as [nd|] eqn:Et.
    + rewrite (Hparent nd eq_refl) in Hdir. done.
    + by rewrite Hdir.
  - intros Ht. rewrite (Hparent Dir Ht). unfold Fs.writeFileSync.
    by rewrite Hnt, Ht.
  - intros q content Hdir Hq Hne Hfile. rewrite Hdir.
    destruct (make_dirs_blocked (UIGenerator.projectRoot self) "app" []
                (files w) q content Hq Hne Hfile) as [at_path Hmk].
    unfold dir, join. rewrite Hmk. eauto.
Qed.

Lemma saveGeneratedUI_failures_witness :
  UIGenerator.saveGeneratedUI (UIGenerator.Make ["proj"] None) "text"
    blocked_project_world
  = (Thrown (SystemError "ENOTDIR" ["proj"; "app"; "GeneratedUI.tsx"]),
     blocked_project_world).
Proof.
  apply (proj1 (saveGeneratedUI_failures (UIGenerator.Make ["proj"] None)
                  "text" blocked_project_world
                  ltac:(apply (bool_decide_unpack _); vm_compute; exact I))
           "not a directory").
  reflexivity.
Defined.

(** ** The shape of the file tree *)

Lemma node_at_insert_dir fs d q :
  Fs.node_at fs q = Some Dir → Fs.node_at (<[d := Dir]> fs) q = Some Dir.
Proof.
  destruct q as [|n q]; [done |]. simpl. intros H.
  destruct (decide (d = n :: q)) as [-> | Hne].
  - apply lookup_insert_eq.
  - by rewrite lookup_insert_ne.
Qed.

Lemma well_formed_insert_dir fs d :
  well_formed fs → d ≠ [] → Fs.node_at fs (Fs.parent d) = Some Dir →
  well_formed (<[d := Dir]> fs).
Proof.
  intros Hwf Hd Hparent p nd Hp.
  destruct (decide (d = p)) as [-> | Hne].
  - split; [done |]. by apply node_at_insert_dir.
  - rewrite lookup_insert_ne in Hp by done.
    destruct (Hwf p nd Hp) as [? ?]. split; [done |]. by apply node_at_insert_dir.
Qed.

Lemma make_dirs_well_formed names : ∀ base fs fs',
  well_formed fs → Fs.node_at fs base = Some Dir →
  Fs.make_dirs base names fs = Returned fs' → well_formed fs'.
Proof.
  induction names as [|n rest IH]; intros base fs fs' Hwf Hbase; simpl.
  - by intros [= <-].
  - destruct (fs !! join base n) as [[c|]|] eqn:E; [done | |].
    + apply IH; [done |]. by rewrite node_at_join.
    + apply IH.
      * apply well_formed_insert_dir; [done | apply join_not_nil |].
        by rewrite parent_join.
      * rewrite node_at_join. apply lookup_insert_eq.
Qed.

Lemma well_formed_write fs dir name content :
  well_formed fs → fs !! join dir name ≠ Some Dir →
  Fs.node_at fs dir = Some Dir →
  well_formed (<[join dir name := File content]> fs).
Proof.
  intros Hwf Ht Hdir p nd Hp.
  assert (join dir name ≠ dir) as Hneq.
  { intros H. apply (f_equal length) in H. unfold join in H.
    rewrite length_app in H. simpl in H. lia. }
  assert (∀ q, Fs.node_at fs q = Some Dir →
               Fs.node_at (<[join dir name := File content]> fs) q = Some Dir)
    as Hkeep.
  { intros [|n q]; [done |]. simpl. intros Hq.
    rewrite lookup_insert_ne; [done |]. intros Heq. rewrite <- Heq in Hq. done. }
  destruct (decide (join dir name = p)) as [<- | Hne].
  - split; [apply join_not_nil |]. rewrite parent_join. by apply Hkeep.
  - rewrite lookup_insert_ne in Hp by done.
    destruct (Hwf p nd Hp) as [? ?]. split; [done |]. by apply Hkeep.
Qed.

(** X12. [saveGeneratedUI] keeps the file tree well formed: if every entry
    has a directory as its parent before the call, the same holds after it,
    whether the call succeeds or throws. *)
Theorem saveGeneratedUI_keeps_tree self code w :
  well_formed (files w) →
  well_formed (files (snd (UIGenerator.saveGeneratedUI self code w))).
Proof.
  intros Hwf. rewrite saveGeneratedUI_unfold.
  set (dir := join (UIGenerator.projectRoot self) "app").
  set (target := join dir "GeneratedUI.tsx").
  assert (∀ w0, well_formed (files w0) →
            well_formed (files (snd (Fs.writeFileSync target code w0)))) as Hwrite.
  { intros w0 Hw0.
    destruct (Fs.writeFileSync target code w0) as [[[]|e] w1] eqn:E.
    - apply writeFileSync_Returned in E as (Ht & Hp & ->). simpl.
      unfold target in Ht, Hp. rewrite node_at_join in Ht.
      rewrite parent_join in Hp. by apply well_formed_write.
    - by apply writeFileSync_Thrown in E as ->. }
  destruct (files w !! dir).
  - specialize (Hwrite w Hwf).
    by destruct (Fs.writeFileSync target code w) as [[[]|e] w1].
  - destruct (Fs.make_dirs [] dir (files w)) as [fs1|e] eqn:Hmk; [|done].
    apply make_dirs_well_formed in Hmk; [|done..].
    specialize (Hwrite (Fs.with_files w fs1) Hmk).
    by destruct (Fs.writeFileSync target code _) as [[[]|e] w1].
Qed.

Lemma saveGeneratedUI_keeps_tree_witness :
  well_formed
    (files (snd (UIGenerator.saveGeneratedUI (UIGenerator.Make ["proj"] None)
                   "new" project_world))).
Proof.
  apply saveGeneratedUI_keeps_tree.
  apply (bool_decide_unpack _). vm_compute. exact I.
Defined.

(** X13. Saving is idempotent: after a successful [saveGeneratedUI], saving
    the same text again succeeds with the same path and leaves the world
    exactly as it is. *)
Theorem saveGeneratedUI_idempotent self code w p w1 :
  UIGenerator.saveGeneratedUI self code w = (Returned p, w1) →
  UIGenerator.saveGeneratedUI self code w1 = (Returned p, w1).
Proof.
  intros (-> & Hdir & Hfile)%saveGeneratedUI_Returned.
  rewrite saveGeneratedUI_in_place by (done || by rewrite Hfile).
  f_equal. destruct w1 as [e c fs sv rq]. unfold Fs.with_files. simpl in *.
  f_equal. by apply insert_id.
Qed.

Lemma saveGeneratedUI_idempotent_witness :
  UIGenerator.saveGeneratedUI (UIGenerator.Make ["proj"] None) "text"
    (snd (UIGenerator.saveGeneratedUI (UIGenerator.Make ["proj"] None)
            "text" bare_world))
  = (Returned ["proj"; "app"; "GeneratedUI.tsx"],
     snd (UIGenerator.saveGeneratedUI (UIGenerator.Make ["proj"] None)
            "text" bare_world)).
Proof.
  apply (saveGeneratedUI_idempotent (UIGenerator.Make ["proj"] None) "text" bare_world).
  vm_compute. reflexivity.
Defined.

(** * Further properties of the prompt *)

Lemma includes_append_l s t p : includes s p = true → includes (s +:+ t) p = true.
Proof.
  intros H. destruct (includes (s +:+ t) p) eqn:E; [done |].
  apply includes_prefix in E. congruence.
Qed.

Lemma includes_append_r s t p : includes t p = true → includes (s +:+ t) p = true.
Proof.
  intros H. destruct (includes (s +:+ t) p) eqn:E; [done |].
  apply includes_suffix in E. congruence.
Qed.

(** What a line includes, the joined lines include. *)
Lemma includes_unlines ls l p :
  l ∈ ls → includes l p = true → includes (unlines ls) p = true.
Proof.
  intros Hin Hl. induction Hin as [l ls | l l' ls Hin IH].
  - destruct ls as [|l2 ls]; [done |].
    change (unlines (l :: l2 :: ls)) with (l +:+ nl +:+ unlines (l2 :: ls)).
    by apply includes_append_l.
  - destruct ls as [|l2 ls]; [by apply elem_of_nil in Hin |].
    change (unlines (l' :: l2 :: ls)) with (l' +:+ nl +:+ unlines (l2 :: ls)).
    by apply includes_append_r, includes_append_r, IH.
Qed.

Lemma includes_end s p : includes (s +:+ p) p = true.
Proof.
  induction s as [|a s IH].
  - destruct p as [|b p]; [done |].
    change (EmptyString +:+ String b p) with (String b p).
    rewrite includes_cons.
    pose proof (starts_with_append (String b p) EmptyString) as H.
    assert (∀ x, x +:+ EmptyString = x) as Hnil
      by (intros x; induction x as [|c x IHx]; simpl; [done | by rewrite IHx]).
    rewrite Hnil in H. by rewrite H.
  - change (String a s +:+ p) with (String a (s +:+ p)). rewrite includes_cons.
    by destruct (starts_with p _).
Qed.

(** X14. The prompt carries the caller's text verbatim: it includes the app
    idea handed to [buildUIPrompt], unescaped, and the name of the theme,
    which is [modern] when the options give none. *)
Theorem buildUIPrompt_mentions_idea_and_theme appIdea options :
  includes (UIGenerator.buildUIPrompt appIdea options) appIdea = true
  ∧ includes (UIGenerator.buildUIPrompt appIdea options)
      ("styling with " +:+ theme_text (default modern (opt_theme options)) +:+ " theme")
    = true.
Proof.
  unfold UIGenerator.buildUIPrompt. split.
  - apply (includes_unlines _ ("APPLICATION IDEA: " +:+ appIdea)).
    + apply (list_elem_of_lookup_2 _ 3). reflexivity.
    + apply includes_end.
  - apply (includes_unlines _
             ("4. Use Tailwind CSS for styling with "
              +:+ theme_text (default modern (opt_theme options)) +:+ " theme")).
    + apply (list_elem_of_lookup_2 _ 9). reflexivity.
    + apply (includes_end "4. Use Tailwind CSS for ").
Qed.

(** * The search page *)

Module SearchPageFacts.

Import SearchPage.

(** ** The comparator *)

(** [compare_for] compares by [rank]. *)
Lemma compare_for_rank u a b :
  ((compare_for u a b < 0)%Z ↔ rank u a < rank u b)
  ∧ ((0 < compare_for u a b)%Z ↔ rank u b < rank u a)
  ∧ (compare_for u a b = 0%Z ↔ rank u a = rank u b).
Proof.
  unfold compare_for, rank.
  destruct (bool_decide (university a = _)), (bool_decide (university b = _)),
    (bool_decide (faculty a = _)), (bool_decide (faculty b = _));
    simpl; repeat split; intros; (lia || done).
Qed.

Lemma compare_for_test u a b :
  (0 <? compare_for u a b)%Z = bool_decide (rank u b < rank u a).
Proof.
  destruct (compare_for_rank u a b) as (_ & H & _).
  destruct (Z.ltb_spec 0 (compare_for u a b)).
  - by rewrite bool_decide_eq_true_2 by (by apply H).
  - rewrite bool_decide_eq_false_2; [done |]. intros ?%H. lia.
Qed.

(** ** The sort *)

Section sort.

Context {A : Type} (compare : A → A → Z) (key : A → nat).

Hypothesis compare_key :
  ∀ x y, (0 <? compare x y)%Z = bool_decide (key y < key x).

Lemma insert_sorted_cons x y l :
  insert_sorted compare x (y :: l) =
  if bool_decide (key y < key x) then y :: insert_sorted compare x l
  else x :: y :: l.
Proof using compare_key. simpl. by rewrite compare_key. Qed.

Lemma insert_sorted_perm x l : insert_sorted compare x l ≡ₚ x :: l.
Proof using compare_key.
  induction l as [|y l IH]; [done |].
  rewrite insert_sorted_cons. case_bool_decide; [|done].
  rewrite IH. apply Permutation_swap.
Qed.

Lemma array_sort_perm l : array_sort compare l ≡ₚ l.
Proof using compare_key.
  induction l as [|x l IH]; [done |].
  unfold array_sort in *. simpl. by rewrite insert_sorted_perm, IH.
Qed.

Lemma insert_sorted_sorted x l :
  StronglySorted (λ a b, key a ≤ key b) l →
  StronglySorted (λ a b, key a ≤ key b) (insert_sorted compare x l).
Proof using compare_key.
  induction l as [|y l IH]; intros Hl.
  - repeat constructor.
  - rewrite insert_sorted_cons.
    apply StronglySorted_inv in Hl as [Hl Hy].
    case_bool_decide as Hlt.
    + constructor; [by apply IH |].
      rewrite insert_sorted_perm. constructor; [lia | done].
    + constructor; [by constructor |].
      constructor; [lia |].
      eapply Forall_impl; [exact Hy |]. simpl. intros z Hz. lia.
Qed.

Lemma array_sort_sorted l :
  StronglySorted (λ a b, key a ≤ key b) (array_sort compare l).
Proof using compare_key.
  induction l as [|x l IH]; [constructor |].
  unfold array_sort in *. simpl. by apply insert_sorted_sorted.
Qed.

Lemma insert_sorted_stable k x l :
  filter (λ a, key a = k) (insert_sorted compare x l)
  = filter (λ a, key a = k) (x :: l).
Proof using compare_key.
  induction l as [|y l IH]; [done |].
  rewrite insert_sorted_cons. case_bool_decide as Hlt; [|done].
  rewrite filter_cons, IH, !filter_cons.
  repeat case_decide; (done || lia).
Qed.

Lemma array_sort_stable k l :
  filter (λ a, key a = k) (array_sort compare l) = filter (λ a, key a = k) l.
Proof using compare_key.
  induction l as [|x l IH]; [done |].
  unfold array_sort in *. simpl.
  by rewrite insert_sorted_stable, !filter_cons, IH.
Qed.

End sort.

(** X15. The comparator of [handleSearch] is a consistent ordering: it
    compares two results by their class (0 for the user's university and
    faculty, 1 for the user's university only, 2 for the rest), it is
    antisymmetric, and it is zero exactly between results of one class. *)
Theorem compare_for_consistent u a b :
  ((compare_for u a b < 0)%Z ↔ rank u a < rank u b)
  ∧ ((0 < compare_for u a b)%Z ↔ rank u b < rank u a)
  ∧ (compare_for u a b = 0%Z ↔ rank u a = rank u b)
  ∧ compare_for u b a = (- compare_for u a b)%Z.
Proof.
  destruct (compare_for_rank u a b) as (H1 & H2 & H3).
  repeat split; try (apply H1 || apply H2 || apply H3).
  unfold compare_for.
  destruct (bool_decide (university a = _)), (bool_decide (university b = _)),
    (bool_decide (faculty a = _)), (bool_decide (faculty b = _)); done.
Qed.

(** X16. The sort of [handleSearch] for a logged-in user rearranges the
    results without adding or losing any, puts the results of the user's
    university and faculty first, then those of the university, then the
    rest, and keeps the original order inside each of the three classes. *)
Theorem prioritised_results u (l : list SearchResult) :
  array_sort (compare_for u) l ≡ₚ l
  ∧ StronglySorted (λ a b, rank u a ≤ rank u b) (array_sort (compare_for u) l)
  ∧ ∀ k, filter (λ r, rank u r = k) (array_sort (compare_for u) l)
         = filter (λ r, rank u r = k) l.
Proof.
  split; [|split].
  - apply (array_sort_perm _ (rank u)), compare_for_test.
  - apply array_sort_sorted, compare_for_test.
  - intros k. apply array_sort_stable, compare_for_test.
Qed.

Section search.

Variable toLowerCase : string → string.

Lemma search_results_members userInfo searchQuery r :
  r ∈ search_results toLowerCase userInfo searchQuery
  ↔ r ∈ mockResults ∧ matches_query toLowerCase searchQuery r = true.
Proof.
  unfold search_results. destruct userInfo as [u|].
  - rewrite (array_sort_perm _ (rank u) (compare_for_test u)).
    rewrite list_elem_of_filter. tauto.
  - rewrite list_elem_of_filter. tauto.
Qed.

(** X17. A query that is not blank makes [handleSearch] set the loading
    flag and one timer; when the timer fires the flag is cleared and the
    results stored are exactly the mock entries whose title, content or
    course includes the query (all lower-cased).  Logging in changes their
    order, never which results are found. *)
Theorem handleSearch_finds st searchQuery :
  is_empty (trim searchQuery) = false →
  ∃ later,
    handleSearch toLowerCase st searchQuery = (setIsLoading true st, Some later)
    ∧ ∀ st',
        isLoading (later st') = false
        ∧ ∀ r, r ∈ results (later st')
               ↔ r ∈ mockResults ∧ matches_query toLowerCase searchQuery r = true.
Proof.
  intros Hq. unfold handleSearch. rewrite Hq. eexists. split; [done |].
  intros st'. split; [done |]. intros r. simpl. apply search_results_members.
Qed.

End search.

(** X18. The tabs split the results: the count on the tab for all results
    is the sum of the counts on the three typed tabs, the selected tab shows
    as many results as its count says, and a typed tab shows only results of
    its type, each of them one of the results. *)
Theorem tabs_partition_results st :
  tab_count st all
  = tab_count st threads + tab_count st users + tab_count st courses
  ∧ length (getTabResults st) = tab_count st (selectedTab st)
  ∧ ∀ r, r ∈ getTabResults st →
         r ∈ results st
         ∧ match selectedTab st with
           | all => True
           | threads => type r = Thread
           | users => type r = User
           | courses => type r = Course
           end.
Proof.
  split; [|split].
  - unfold tab_count. induction (results st) as [|r rs IH]; [done |].
    rewrite !filter_cons. simpl. rewrite IH.
    destruct (type r); repeat case_decide; simpl; (done || lia).
  - unfold getTabResults, tab_count. by destruct (selectedTab st).
  - intros r. unfold getTabResults.
    destruct (selectedTab st); rewrite ?list_elem_of_filter; tauto.
Qed.

(** The mock entries as a student of the second entry's university sees
    them: that entry first, the others in their order. *)
Example waseda_first :
  map id (array_sort (compare_for waseda_student) mockResults) = ["2"; "1"; "3"].
Proof. by vm_compute. Qed.

Example economics_query_finds_thread :
  map id (search_results ascii_toLowerCase (Some waseda_student) "IS-LM") = ["1"].
Proof. by vm_compute. Qed.

Lemma handleSearch_finds_witness :
  ∃ later,
    handleSearch ascii_toLowerCase waseda_page "IS-LM"
    = (setIsLoading true waseda_page, Some later)
    ∧ isLoading (later (setIsLoading true waseda_page)) = false.
Proof.
  destruct (handleSearch_finds ascii_toLowerCase waseda_page "IS-LM")
    as (later & Hrun & Hlater).
  - reflexivity.
  - exists later. split; [exact Hrun |]. apply Hlater.
Defined.

End SearchPageFacts.
